(** * nats-top: the interactive dashboard of [nats-top.go]

    A shallow embedding of the formatter ([generateParagraph]) and of the
    event loop of [StartUI], with the helper goroutines that the loop starts.

    Go strings are byte strings: they are modelled by [string], whose
    characters are the 256 byte values.  Go's [int], [int64] and [rune] are
    modelled by [Z]. *)

From Stdlib Require Import ZArith List String Ascii Bool Lia.
From Stdlib Require Import Permutation Sorted DecimalString DecimalPos.
Import ListNotations.

Local Open Scope string_scope.
Local Open Scope Z_scope.

(** ** Go strings and runes *)

Module GoString.

Definition byte (z : Z) : ascii := ascii_of_N (Z.to_N z).
Definition code (c : ascii) : Z := Z.of_N (N_of_ascii c).

Fixpoint bytes (l : list Z) : string :=
  match l with
  | [] => EmptyString
  | b :: l' => String (byte b) (bytes l')
  end.

(** [len(s)] *)
Definition len (s : string) : Z := Z.of_nat (String.length s).

(** [s[:len(s)-1]]; the source evaluates it only under [len(s) > 0]. *)
Fixpoint drop_last (s : string) : string :=
  match s with
  | EmptyString => EmptyString
  | String c EmptyString => EmptyString
  | String c s' => String c (drop_last s')
  end.

Fixpoint spaces (n : nat) : string :=
  match n with
  | O => EmptyString
  | S n' => String " " (spaces n')
  end.

(** [utf8.RuneError] *)
Definition RuneError : Z := 0xFFFD.

(** [string(r)] for a rune [r]: the UTF-8 encoding of [r], and the
    encoding of U+FFFD when [r] is not a valid code point. *)
Definition of_rune (r : Z) : string :=
  if (r <? 0) || (0x10FFFF <? r) || ((0xD800 <=? r) && (r <=? 0xDFFF))
  then bytes [0xEF; 0xBF; 0xBD]
  else if r <? 0x80 then bytes [r]
  else if r <? 0x800 then
    bytes [Z.lor 0xC0 (Z.shiftr r 6); Z.lor 0x80 (Z.land r 0x3F)]
  else if r <? 0x10000 then
    bytes [Z.lor 0xE0 (Z.shiftr r 12);
           Z.lor 0x80 (Z.land (Z.shiftr r 6) 0x3F);
           Z.lor 0x80 (Z.land r 0x3F)]
  else
    bytes [Z.lor 0xF0 (Z.shiftr r 18);
           Z.lor 0x80 (Z.land (Z.shiftr r 12) 0x3F);
           Z.lor 0x80 (Z.land (Z.shiftr r 6) 0x3F);
           Z.lor 0x80 (Z.land r 0x3F)].

Definition cont (lo hi : Z) (c : ascii) : bool :=
  (lo <=? code c) && (code c <=? hi).

(** [utf8.DecodeRuneInString] on a non-empty string: the first rune and
    the rest of the string.  An invalid or short encoding gives
    [RuneError] and consumes one byte. *)
Definition DecodeRune (c0 : ascii) (s : string) : Z * string :=
  let b0 := code c0 in
  let bad := (RuneError, s) in
  if b0 <? 0x80 then (b0, s)
  else if (b0 <? 0xC2) || (0xF4 <? b0) then bad
  else
    match s with
    | EmptyString => bad
    | String c1 s1 =>
      let lo := if b0 =? 0xE0 then 0xA0 else if b0 =? 0xF0 then 0x90 else 0x80 in
      let hi := if b0 =? 0xED then 0x9F else if b0 =? 0xF4 then 0x8F else 0xBF in
      if negb (cont lo hi c1) then bad
      else if b0 <? 0xE0 then
        (Z.lor (Z.shiftl (Z.land b0 0x1F) 6) (Z.land (code c1) 0x3F), s1)
      else
        match s1 with
        | EmptyString => bad
        | String c2 s2 =>
          if negb (cont 0x80 0xBF c2) then bad
          else if b0 <? 0xF0 then
            (Z.lor (Z.shiftl (Z.land b0 0x0F) 12)
               (Z.lor (Z.shiftl (Z.land (code c1) 0x3F) 6)
                  (Z.land (code c2) 0x3F)), s2)
          else
            match s2 with
            | EmptyString => bad
            | String c3 s3 =>
              if negb (cont 0x80 0xBF c3) then bad
              else
                (Z.lor (Z.shiftl (Z.land b0 0x07) 18)
                   (Z.lor (Z.shiftl (Z.land (code c1) 0x3F) 12)
                      (Z.lor (Z.shiftl (Z.land (code c2) 0x3F) 6)
                         (Z.land (code c3) 0x3F))), s3)
            end
        end
    end.

Fixpoint rune_count (fuel : nat) (s : string) : nat :=
  match fuel, s with
  | S fuel', String c s' => S (rune_count fuel' (snd (DecodeRune c s')))
  | _, _ => O
  end.

(** [utf8.RuneCountInString] *)
Definition RuneCountInString (s : string) : nat :=
  rune_count (String.length s) s.

End GoString.

(** ** Package fmt *)

Module fmt.
Import GoString.

(** The verb [%d] on an integer. *)
Definition verb_d (n : Z) : string := NilZero.string_of_int (Z.to_int n).

(** [%-Ns]: left-justified in a field of [w] runes. *)
Definition pad_right (w : nat) (s : string) : string :=
  s ++ spaces (w - RuneCountInString s).

(** [%Ns]: right-justified in a field of [w] runes. *)
Definition pad_left (w : nat) (s : string) : string :=
  spaces (w - RuneCountInString s) ++ s.

(** The table [space] of fmt/scan.go. *)
Definition isSpace (r : Z) : bool :=
  ((0x0009 <=? r) && (r <=? 0x000d)) || (r =? 0x0020) || (r =? 0x0085)
  || (r =? 0x00a0) || (r =? 0x1680) || ((0x2000 <=? r) && (r <=? 0x200a))
  || ((0x2028 <=? r) && (r <=? 0x2029)) || (r =? 0x202f) || (r =? 0x205f)
  || (r =? 0x3000).

(** [SkipSpace] of a scan in which newlines are not spaces ([Sscanf]):
    [None] is the error "unexpected newline". *)
Fixpoint SkipSpace (fuel : nat) (s : string) : option string :=
  match fuel, s with
  | S fuel', String c s' =>
    let (r, rest) := DecodeRune c s' in
    if (r =? 13) && (match rest with String c1 _ => code c1 =? 10 | _ => false end)
    then SkipSpace fuel' rest
    else if r =? 10 then None
    else if isSpace r then SkipSpace fuel' rest
    else Some s
  | _, _ => Some s
  end.

Definition is_digit (c : ascii) : bool := (48 <=? code c) && (code c <=? 57).
Definition is_sign (c : ascii) : bool := (code c =? 43) || (code c =? 45).

(** The digits accepted by [scanNumber], as a value, most significant
    first; [acc] is the value read so far. *)
Fixpoint scanDigits (acc : Z) (s : string) : Z :=
  match s with
  | String c s' => if is_digit c then scanDigits (10 * acc + (code c - 48)) s' else acc
  | EmptyString => acc
  end.

(** [scanNumber] after an optional sign, then [strconv.ParseInt] at 64
    bits, which rejects a value out of range. *)
Definition scanNumber (negative : bool) (s : string) : option Z :=
  match s with
  | String c _ =>
    if is_digit c then
      let v := scanDigits 0 s in
      let n := if negative then - v else v in
      if (- 2 ^ 63 <=? n) && (n <=? 2 ^ 63 - 1) then Some n else None
    else None
  | EmptyString => None
  end.

(** [fmt.Sscanf(s, "%d", &n)] with [n] an [int] of 64 bits: [Some n] when
    [err == nil].  Input after the number is not looked at. *)
Definition Sscanf_d (s : string) : option Z :=
  match SkipSpace (S (String.length s)) s with
  | None => None
  | Some EmptyString => None
  | Some (String c s' as t) =>
    if is_sign c then scanNumber (code c =? 45) s' else scanNumber false t
  end.

End fmt.

(** ** Package termui: the events the loop receives *)

Module ui.

Inductive EventType :=
| EventKey | EventResize | EventMouse | EventError
| EventInterrupt | EventRaw | EventNone.

(** The fields of [ui.Event] that [StartUI] reads. *)
Record Event := mkEvent { Type_ : EventType; Key : Z; Ch : Z }.

Definition KeyCtrlC : Z := 0x03.
Definition KeyBackspace : Z := 0x08.
Definition KeyEnter : Z := 0x0D.
Definition KeyBackspace2 : Z := 0x7F.

(** [e.Type == ui.EventKey] *)
Definition isKey (e : Event) : bool :=
  match Type_ e with EventKey => true | _ => false end.

(** The event of a typed character, and of a special key: termui sets
    either [Ch] or [Key], the other one is zero. *)
Definition char (c : ascii) : Event := mkEvent EventKey 0 (GoString.code c).
Definition key (k : Z) : Event := mkEvent EventKey k 0.

Definition well_formed (e : Event) : Prop := Key e = 0 \/ Ch e = 0.

(** The events of typing a text, and of the enter key. *)
Definition typed (s : string) : list Event := map char (list_ascii_of_string s).
Definition enter : Event := key KeyEnter.

End ui.

(** ** Sort options and the engine *)

(** Modelled from the spec: the constants [SortByCid] ... [SortByInBytes]
    are declared in package util, which is not among the sources; their
    spelling is the one of the spec and of [generateHelp]. *)
Definition SortByCid : string := "cid".
Definition SortBySubs : string := "subs".
Definition SortByPending : string := "pending".
Definition SortByOutMsgs : string := "msgs_to".
Definition SortByInMsgs : string := "msgs_from".
Definition SortByOutBytes : string := "bytes_to".
Definition SortByInBytes : string := "bytes_from".

(** The [case] list shared by the two switches over a sort option
    (in [main] and on enter in [StartUI]). *)
Definition validSortOpt (o : string) : bool :=
  (o =? SortByCid)%string || (o =? SortBySubs)%string
  || (o =? SortByPending)%string || (o =? SortByOutMsgs)%string
  || (o =? SortByInMsgs)%string || (o =? SortByOutBytes)%string
  || (o =? SortByInBytes)%string.

(** The fields of [util.Engine] that this file uses. *)
Record Engine := mkEngine {
  Conns : Z;
  Delay : Z;
  SortOpt : string;
  DisplaySubs : bool
}.

Inductive ViewMode := TopViewMode | HelpViewMode.

Definition ViewMode_eqb (a b : ViewMode) : bool :=
  match a, b with
  | TopViewMode, TopViewMode | HelpViewMode, HelpViewMode => true
  | _, _ => false
  end.

(** ** The state of [StartUI] *)

(** What the process does to the outside. *)
Inductive Effect :=
| Printf (s : string)        (* fmt.Printf, fmt.Print: the text written *)
| CloseShutdownCh            (* close(shutdownCh) *)
| UiClose                    (* ui.Close() *)
| OsExit (code : Z)          (* os.Exit *)
| Sleep (ns : Z)             (* time.Sleep *)
| UiRender                   (* ui.Render(ui.Body) *)
| BodyAlign.                 (* ui.Body.Width = ui.TermWidth(); ui.Body.Align() *)

(** The goroutines that the loop starts with [go func() {...}()]. *)
Inductive Goroutine :=
| InvalidOrder               (* lines 361-369, not started yet *)
| InvalidOrderAsleep         (* the same, inside time.Sleep *)
| RedrawSender.              (* line 461: redraw <- struct{}{} *)

(** The variables of [StartUI] that change, the engine behind its pointer,
    and the goroutines in flight. *)
Record UI := mkUI {
  engine : Engine;
  viewMode : ViewMode;
  waitingSortOption : bool;
  waitingLimitOption : bool;
  displaySubscriptions : bool;
  optionBuf : string;
  bodyRows : ViewMode;         (* whose grid ui.Body.Rows holds *)
  parText : string;            (* text and par.Text *)
  goroutines : list Goroutine;
  updateSending : bool         (* update() is blocked on redraw <- *)
}.

Definition set_engine (f : Engine -> Engine) (s : UI) : UI :=
  mkUI (f (engine s)) (viewMode s) (waitingSortOption s) (waitingLimitOption s)
       (displaySubscriptions s) (optionBuf s) (bodyRows s) (parText s)
       (goroutines s) (updateSending s).
Definition set_SortOpt (o : string) : Engine -> Engine :=
  fun g => mkEngine (Conns g) (Delay g) o (DisplaySubs g).
Definition set_Conns (n : Z) : Engine -> Engine :=
  fun g => mkEngine n (Delay g) (SortOpt g) (DisplaySubs g).
Definition set_DisplaySubs (b : bool) : Engine -> Engine :=
  fun g => mkEngine (Conns g) (Delay g) (SortOpt g) b.
Definition set_viewMode (v : ViewMode) (s : UI) : UI :=
  mkUI (engine s) v (waitingSortOption s) (waitingLimitOption s)
       (displaySubscriptions s) (optionBuf s) (bodyRows s) (parText s)
       (goroutines s) (updateSending s).
Definition set_waitingSortOption (b : bool) (s : UI) : UI :=
  mkUI (engine s) (viewMode s) b (waitingLimitOption s)
       (displaySubscriptions s) (optionBuf s) (bodyRows s) (parText s)
       (goroutines s) (updateSending s).
Definition set_waitingLimitOption (b : bool) (s : UI) : UI :=
  mkUI (engine s) (viewMode s) (waitingSortOption s) b
       (displaySubscriptions s) (optionBuf s) (bodyRows s) (parText s)
       (goroutines s) (updateSending s).
Definition set_displaySubscriptions (b : bool) (s : UI) : UI :=
  mkUI (engine s) (viewMode s) (waitingSortOption s) (waitingLimitOption s)
       b (optionBuf s) (bodyRows s) (parText s)
       (goroutines s) (updateSending s).
Definition set_optionBuf (b : string) (s : UI) : UI :=
  mkUI (engine s) (viewMode s) (waitingSortOption s) (waitingLimitOption s)
       (displaySubscriptions s) b (bodyRows s) (parText s)
       (goroutines s) (updateSending s).
Definition set_bodyRows (v : ViewMode) (s : UI) : UI :=
  mkUI (engine s) (viewMode s) (waitingSortOption s) (waitingLimitOption s)
       (displaySubscriptions s) (optionBuf s) v (parText s)
       (goroutines s) (updateSending s).
Definition set_parText (t : string) (s : UI) : UI :=
  mkUI (engine s) (viewMode s) (waitingSortOption s) (waitingLimitOption s)
       (displaySubscriptions s) (optionBuf s) (bodyRows s) t
       (goroutines s) (updateSending s).
Definition set_goroutines (g : list Goroutine) (s : UI) : UI :=
  mkUI (engine s) (viewMode s) (waitingSortOption s) (waitingLimitOption s)
       (displaySubscriptions s) (optionBuf s) (bodyRows s) (parText s)
       g (updateSending s).
Definition set_updateSending (b : bool) (s : UI) : UI :=
  mkUI (engine s) (viewMode s) (waitingSortOption s) (waitingLimitOption s)
       (displaySubscriptions s) (optionBuf s) (bodyRows s) (parText s)
       (goroutines s) b.

(** ** Statements

    One pass through the body of the [for] loop either falls through to the
    next statement, leaves the pass with [continue], or ends the process
    inside [cleanExit]. *)

Inductive Flow := Fall | Continue | Exit.

Definition Stmt : Type := UI -> UI * list Effect * Flow.

Definition skip : Stmt := fun s => (s, [], Fall).
Definition assign (f : UI -> UI) : Stmt := fun s => (f s, [], Fall).
Definition emit (f : UI -> Effect) : Stmt := fun s => (s, [f s], Fall).
Definition continue_ : Stmt := fun s => (s, [], Continue).
Definition exit_ (code : Z) : Stmt := fun s => (s, [OsExit code], Exit).
Definition go_ (g : Goroutine) : Stmt :=
  assign (fun s => set_goroutines (goroutines s ++ [g])%list s).

Definition seq (a b : Stmt) : Stmt :=
  fun s =>
    match a s with
    | (s1, o1, Fall) => let '(s2, o2, f) := b s1 in (s2, (o1 ++ o2)%list, f)
    | r => r
    end.

Definition If (c : UI -> bool) (a b : Stmt) : Stmt :=
  fun s => if c s then a s else b s.
Definition When (c : UI -> bool) (a : Stmt) : Stmt := If c a skip.

Declare Scope stmt_scope.
Delimit Scope stmt_scope with stmt.
Bind Scope stmt_scope with Stmt.
Notation "a ;; b" := (seq a b) (at level 61, right associativity) : stmt_scope.
Local Open Scope stmt_scope.

Definition ESC : string := GoString.bytes [27].
(** The cursor move that precedes every prompt: "\033[1;1H\033[6;1H". *)
Definition at_prompt : string := ESC ++ "[1;1H" ++ ESC ++ "[6;1H".

(** ** [clearScreen] and [cleanExit] *)

Definition clearScreen : Stmt :=
  emit (fun _ => Printf (ESC ++ "[2J" ++ ESC ++ "[1;1H" ++ ESC ++ "[?25l")).

Definition cleanExit : Stmt :=
  clearScreen ;;
  emit (fun _ => UiClose) ;;
  emit (fun _ => Printf (ESC ++ "[?25h")) ;;
  exit_ 0.

(** ** The body of the event loop (lines 350-462) *)

Definition rune (c : ascii) : Z := GoString.code c.

(** [refreshOptionHeader] (lines 331-340): blanks over what was typed. *)
Definition refreshOptionHeader : Stmt :=
  emit (fun s =>
    Printf (at_prompt ++ GoString.spaces 18 ++ "  "
            ++ GoString.spaces (2 * String.length (optionBuf s))%nat)).

(** [e.Type == ui.EventKey && e.Key == ui.KeyEnter] *)
Definition isEnter (e : ui.Event) : bool :=
  ui.isKey e && (ui.Key e =? ui.KeyEnter).

(** The condition of lines 380 and 406. *)
Definition isBackspace (e : ui.Event) (s : UI) : bool :=
  ui.isKey e && (0 <? GoString.len (optionBuf s))
  && ((ui.Key e =? ui.KeyBackspace) || (ui.Key e =? ui.KeyBackspace2)).

(** "Handle backspace": lines 379-385, and again lines 405-411. *)
Definition editOptionBuf (e : ui.Event) : Stmt :=
  If (isBackspace e)
     (assign (fun s => set_optionBuf (GoString.drop_last (optionBuf s)) s) ;;
      refreshOptionHeader)
     (assign (fun s => set_optionBuf (optionBuf s ++ GoString.of_rune (ui.Ch e)) s)).

(** [if waitingSortOption {...}] (lines 352-387) *)
Definition sortOption (e : ui.Event) : Stmt :=
  When waitingSortOption
    (When (fun _ => isEnter e)
       (If (fun s => validSortOpt (optionBuf s))
           (assign (fun s => set_engine (set_SortOpt (optionBuf s)) s))
           (go_ InvalidOrder ;; continue_) ;;
        refreshOptionHeader ;;
        assign (set_waitingSortOption false) ;;
        assign (set_optionBuf "") ;;
        continue_) ;;
     editOptionBuf e ;;
     emit (fun s =>
       Printf (at_prompt ++ "sort by [" ++ SortOpt (engine s) ++ "]: " ++ optionBuf s))).

(** [if waitingLimitOption {...}] (lines 389-413) *)
Definition limitOption (e : ui.Event) : Stmt :=
  When waitingLimitOption
    (When (fun _ => isEnter e)
       (assign (fun s =>
          match fmt.Sscanf_d (optionBuf s) with
          | Some n => set_engine (set_Conns n) s
          | None => s
          end) ;;
        assign (set_waitingLimitOption false) ;;
        assign (set_optionBuf "") ;;
        refreshOptionHeader ;;
        continue_) ;;
     editOptionBuf e ;;
     emit (fun s =>
       Printf (at_prompt ++ "limit   [" ++ fmt.verb_d (Conns (engine s)) ++ "]: "
               ++ optionBuf s))).

(** The condition of line 415. *)
Definition isQuit (e : ui.Event) : bool :=
  ui.isKey e && ((ui.Ch e =? rune "q") || (ui.Key e =? ui.KeyCtrlC)).

(** Lines 415-418. *)
Definition quit (e : ui.Event) : Stmt :=
  When (fun _ => isQuit e)
    (emit (fun _ => CloseShutdownCh) ;; cleanExit).

(** Lines 420-428. *)
Definition toggleSubscriptions (e : ui.Event) : Stmt :=
  When (fun s => ui.isKey e && (ui.Ch e =? rune "s")
                 && negb (waitingLimitOption s || waitingSortOption s))
    (If displaySubscriptions
        (assign (set_displaySubscriptions false) ;;
         assign (set_engine (set_DisplaySubs false)))
        (assign (set_displaySubscriptions true) ;;
         assign (set_engine (set_DisplaySubs true)))).

(** Lines 430-434. *)
Definition leaveHelp (e : ui.Event) : Stmt :=
  When (fun s => ui.isKey e && ViewMode_eqb (viewMode s) HelpViewMode)
    (assign (set_bodyRows TopViewMode) ;;
     assign (set_viewMode TopViewMode) ;;
     continue_).

(** Lines 436-439. *)
Definition askSortOption (e : ui.Event) : Stmt :=
  When (fun s => ui.isKey e && (ui.Ch e =? rune "o")
                 && negb (waitingLimitOption s)
                 && ViewMode_eqb (viewMode s) TopViewMode)
    (emit (fun s => Printf (at_prompt ++ "sort by [" ++ SortOpt (engine s) ++ "]:")) ;;
     assign (set_waitingSortOption true)).

(** Lines 441-444. *)
Definition askLimitOption (e : ui.Event) : Stmt :=
  When (fun s => ui.isKey e && (ui.Ch e =? rune "n")
                 && negb (waitingSortOption s)
                 && ViewMode_eqb (viewMode s) TopViewMode)
    (emit (fun s =>
       Printf (at_prompt ++ "limit   [" ++ fmt.verb_d (Conns (engine s)) ++ "]:")) ;;
     assign (set_waitingLimitOption true)).

(** Lines 446-456. *)
Definition showHelp (e : ui.Event) : Stmt :=
  When (fun s => ui.isKey e && ((ui.Ch e =? rune "?") || (ui.Ch e =? rune "h"))
                 && negb (waitingSortOption s || waitingLimitOption s))
    (When (fun s => ViewMode_eqb (viewMode s) TopViewMode)
       (refreshOptionHeader ;; assign (set_optionBuf "")) ;;
     assign (set_bodyRows HelpViewMode) ;;
     assign (set_viewMode HelpViewMode) ;;
     assign (set_waitingLimitOption false) ;;
     assign (set_waitingSortOption false)).

(** Lines 458-462. *)
Definition resize (e : ui.Event) : Stmt :=
  When (fun _ => match ui.Type_ e with ui.EventResize => true | _ => false end)
    (emit (fun _ => BodyAlign) ;; go_ RedrawSender).

(** [case e := <-evt:] one event through the body of the loop. *)
Definition handle (e : ui.Event) : Stmt :=
  sortOption e ;; limitOption e ;; quit e ;; toggleSubscriptions e ;;
  leaveHelp e ;; askSortOption e ;; askLimitOption e ;; showHelp e ;;
  resize e.

(** [time.Second], in nanoseconds. *)
Definition Second : Z := 1000000000.

(** The goroutine of lines 361-369, up to and including the call of
    [time.Sleep], and after it. *)
Definition invalidOrder_start : Stmt :=
  emit (fun s => Printf (at_prompt ++ "invalid order: " ++ optionBuf s ++ "       ")) ;;
  assign (set_waitingSortOption false) ;;
  emit (fun _ => Sleep (1 * Second)).

Definition invalidOrder_wake : Stmt :=
  refreshOptionHeader ;; assign (set_optionBuf "").

(** The variables of [StartUI] before the loop (lines 308-330), around an
    engine and the first text of the paragraph. *)
Definition StartUI_init (g : Engine) (text : string) : UI :=
  mkUI g TopViewMode false false false "" TopViewMode text [] false.

(** The loop on a sequence of events, with no goroutine running in
    between; the boolean tells whether the process has exited. *)
Fixpoint loop (evs : list ui.Event) (s : UI) : UI * list Effect * bool :=
  match evs with
  | [] => (s, [], false)
  | e :: evs' =>
    match handle e s with
    | (s1, o1, Exit) => (s1, o1, true)
    | (s1, o1, _) => let '(s2, o2, x) := loop evs' s1 in (s2, (o1 ++ o2)%list, x)
    end
  end.

(** ** Package sort *)

Module sort.

(** [sort.Reverse]: [Less(i, j)] of the reverse is [Less(j, i)]. *)
Definition Reverse {A : Type} (less : A -> A -> bool) : A -> A -> bool :=
  fun a b => less b a.

(** A slice is in the order of [less] when no element is less than one
    that stands before it. *)
Definition ordered {A : Type} (less : A -> A -> bool) (l : list A) : Prop :=
  StronglySorted (fun a b => less b a = false) l.

(** What [sort.Sort] asks of [Less]. *)
Definition weak_order {A : Type} (less : A -> A -> bool) : Prop :=
  (forall a b, less a b = true -> less b a = false) /\
  (forall a b c, less b a = false -> less c b = false -> less c a = false).

(** [sort.Sort] by its contract: it permutes the slice in place into the
    order of [Less].  The order of equal elements is not fixed (the sort is
    not stable), so the library function is an interface here, and
    [insertion] below is the instance that [sort.Sort] runs on short
    slices. *)
Record Algorithm := mkAlgorithm {
  Sort : forall A : Type, (A -> A -> bool) -> list A -> list A;
  Sort_permutes : forall A less l, Permutation l (Sort A less l);
  Sort_orders : forall A less, weak_order less -> forall l, ordered less (Sort A less l)
}.

(** The inner loop of [insertionSort]: [x] moves left past every element
    it is less than.  [rp] is the sorted prefix, last element first. *)
Fixpoint insert {A : Type} (less : A -> A -> bool) (x : A) (rp : list A) : list A :=
  match rp with
  | [] => [x]
  | y :: rp' => if less x y then y :: insert less x rp' else x :: rp
  end.

(** [insertionSort(data, 0, len)] *)
Definition insertionSort (A : Type) (less : A -> A -> bool) (l : list A) : list A :=
  rev (fold_left (fun rp x => insert less x rp) l []).

End sort.

(** ** The snapshot: [gnatsd.ConnInfo], [gnatsd.Connz], [gnatsd.Varz],
    [Rates], [Stats] *)

Module ConnInfo.
Record t := mk {
  Cid : Z;
  IP : string;
  Port : Z;
  Name : string;
  NumSubs : Z;
  Pending : Z;
  InMsgs : Z;
  OutMsgs : Z;
  InBytes : Z;
  OutBytes : Z;
  Lang : string;
  Version : string;
  Uptime : string;
  LastActivity : string;       (* a time.Time, as [%s] prints it *)
  Subs : list string
}.
End ConnInfo.

Module Connz.
Record t := mk { NumConns : Z; Conns : list ConnInfo.t }.
End Connz.

Module Varz.
Record t (float64 : Type) := mk {
  Info : option string;        (* Info.Version behind a pointer that may be nil *)
  CPU : float64;
  Mem : Z;
  Uptime : string;
  InMsgs : Z;
  OutMsgs : Z;
  InBytes : Z;
  OutBytes : Z;
  SlowConsumers : Z
}.
Arguments mk {float64}.
Arguments Info {float64}.
Arguments CPU {float64}.
Arguments Mem {float64}.
Arguments Uptime {float64}.
Arguments InMsgs {float64}.
Arguments OutMsgs {float64}.
Arguments InBytes {float64}.
Arguments OutBytes {float64}.
Arguments SlowConsumers {float64}.
End Varz.

Module Rates.
Record t (float64 : Type) := mk {
  InMsgsRate : float64;
  OutMsgsRate : float64;
  InBytesRate : float64;
  OutBytesRate : float64
}.
Arguments mk {float64}.
Arguments InMsgsRate {float64}.
Arguments OutMsgsRate {float64}.
Arguments InBytesRate {float64}.
Arguments OutBytesRate {float64}.
End Rates.

Module Stats.
Record t (float64 : Type) := mk {
  Varz : Varz.t float64;
  Connz : Connz.t;
  Rates : Rates.t float64
}.
Arguments mk {float64}.
Arguments Varz {float64}.
Arguments Connz {float64}.
Arguments Rates {float64}.
End Stats.

(** Modelled from the spec: the orders [ByCid] ... [ByBytesFrom] are
    declared outside the sources; each compares the field its sort key
    names, which is the field printed in the column of that name. *)
Definition ByCid (a b : ConnInfo.t) : bool := ConnInfo.Cid a <? ConnInfo.Cid b.
Definition BySubs (a b : ConnInfo.t) : bool := ConnInfo.NumSubs a <? ConnInfo.NumSubs b.
Definition ByPending (a b : ConnInfo.t) : bool := ConnInfo.Pending a <? ConnInfo.Pending b.
Definition ByMsgsTo (a b : ConnInfo.t) : bool := ConnInfo.OutMsgs a <? ConnInfo.OutMsgs b.
Definition ByMsgsFrom (a b : ConnInfo.t) : bool := ConnInfo.InMsgs a <? ConnInfo.InMsgs b.
Definition ByBytesTo (a b : ConnInfo.t) : bool := ConnInfo.OutBytes a <? ConnInfo.OutBytes b.
Definition ByBytesFrom (a b : ConnInfo.t) : bool := ConnInfo.InBytes a <? ConnInfo.InBytes b.

(** ** [generateParagraph] *)

Definition LF : string := GoString.bytes [10].

(** The thirteen columns that [connHeader] and [connValues] share: the
    text before each column and its width ([%-20s], [%-8s] or [%-8d], ...). *)
Definition columns : list (string * nat) :=
  [("  ", 20); (" ", 8); (" ", 15); (" ", 6); ("  ", 10); ("  ", 10);
   ("  ", 10); ("  ", 10); ("  ", 10); ("  ", 7); ("  ", 7); ("  ", 7);
   ("  ", 40)]%nat.

(** [fmt.Sprintf] of such a format on operands already rendered by their
    verbs; the source passes one operand per column. *)
Fixpoint Sprintf_columns (cols : list (string * nat)) (args : list string) : string :=
  match cols, args with
  | (sep, w) :: cols', a :: args' =>
    sep ++ fmt.pad_right w a ++ Sprintf_columns cols' args'
  | _, _ => ""
  end.

Section Program.

(** [float64] values are only carried from the snapshot to the text. *)
Variable float64 : Type.
(** The verb [%.1f]. *)
Variable verb_f1 : float64 -> string.
(** The conversion [int64(x)]. *)
Variable int64 : float64 -> Z.
(** [util.Psize], declared outside the sources. *)
Variable Psize : Z -> string.
(** The algorithm behind [sort.Sort]. *)
Variable alg : sort.Algorithm.

(** The [switch engine.SortOpt] of lines 222-237, on the slice
    [stats.Connz.Conns]: the slice after the switch. *)
Definition sortConns (opt : string) (conns : list ConnInfo.t) : list ConnInfo.t :=
  if (opt =? SortByCid)%string then sort.Sort alg _ ByCid conns
  else if (opt =? SortBySubs)%string then sort.Sort alg _ (sort.Reverse BySubs) conns
  else if (opt =? SortByPending)%string then sort.Sort alg _ (sort.Reverse ByPending) conns
  else if (opt =? SortByOutMsgs)%string then sort.Sort alg _ (sort.Reverse ByMsgsTo) conns
  else if (opt =? SortByInMsgs)%string then sort.Sort alg _ (sort.Reverse ByMsgsFrom) conns
  else if (opt =? SortByOutBytes)%string then sort.Sort alg _ (sort.Reverse ByBytesTo) conns
  else if (opt =? SortByInBytes)%string then sort.Sort alg _ (sort.Reverse ByBytesFrom) conns
  else conns.

(** Lines 160-194: the server block and the count of connections. *)
Definition serverText (stats : Stats.t float64) : string :=
  let v := Stats.Varz stats in
  let r := Stats.Rates stats in
  let serverVersion := match Varz.Info v with Some ver => ver | None => "" end in
  "gnatsd version " ++ serverVersion ++ " (uptime: " ++ Varz.Uptime v ++ ")"
  ++ LF ++ "Server:" ++ LF ++ "  Load: CPU:  " ++ verb_f1 (Varz.CPU v) ++ "%  Memory: "
  ++ Psize (Varz.Mem v) ++ "  Slow Consumers: " ++ fmt.verb_d (Varz.SlowConsumers v) ++ LF
  ++ "  In:   Msgs: " ++ Psize (Varz.InMsgs v) ++ "  Bytes: " ++ Psize (Varz.InBytes v)
  ++ "  Msgs/Sec: " ++ verb_f1 (Rates.InMsgsRate r)
  ++ "  Bytes/Sec: " ++ Psize (int64 (Rates.InBytesRate r)) ++ LF
  ++ "  Out:  Msgs: " ++ Psize (Varz.OutMsgs v) ++ "  Bytes: " ++ Psize (Varz.OutBytes v)
  ++ "  Msgs/Sec: " ++ verb_f1 (Rates.OutMsgsRate r)
  ++ "  Bytes/Sec: " ++ Psize (int64 (Rates.OutBytesRate r))
  ++ LF ++ LF ++ "Connections: " ++ fmt.verb_d (Connz.NumConns (Stats.Connz stats)) ++ LF.

(** Lines 197-213: the header of the table. *)
Definition connRows (displaySubs : bool) : string :=
  Sprintf_columns columns
    ["HOST"; "CID"; "NAME"; "SUBS"; "PENDING"; "MSGS_TO"; "MSGS_FROM";
     "BYTES_TO"; "BYTES_FROM"; "LANG"; "VERSION"; "UPTIME"; "LAST ACTIVITY"]
  ++ (if displaySubs then fmt.pad_left 13 "SUBSCRIPTIONS" else "") ++ LF.

(** Lines 240-252: the row of one connection. *)
Definition connLine (displaySubs : bool) (conn : ConnInfo.t) : string :=
  let host := ConnInfo.IP conn ++ ":" ++ fmt.verb_d (ConnInfo.Port conn) in
  Sprintf_columns columns
    [host; fmt.verb_d (ConnInfo.Cid conn); ConnInfo.Name conn;
     fmt.verb_d (ConnInfo.NumSubs conn); Psize (ConnInfo.Pending conn);
     Psize (ConnInfo.OutMsgs conn); Psize (ConnInfo.InMsgs conn);
     Psize (ConnInfo.OutBytes conn); Psize (ConnInfo.InBytes conn);
     ConnInfo.Lang conn; ConnInfo.Version conn; ConnInfo.Uptime conn;
     ConnInfo.LastActivity conn]
  ++ (if displaySubs then String.concat ", " (ConnInfo.Subs conn) else "") ++ LF.

(** [generateParagraph(engine, stats)]: the text it returns, and the
    snapshot behind the pointer [stats] when it returns; [sort.Sort] works
    in place on [stats.Connz.Conns]. *)
Definition generateParagraph (g : Engine) (stats : Stats.t float64)
  : string * Stats.t float64 :=
  let text := serverText stats in
  let displaySubs := DisplaySubs g in
  let text := text ++ connRows displaySubs in
  let conns := sortConns (SortOpt g) (Connz.Conns (Stats.Connz stats)) in
  let stats' :=
    Stats.mk (Stats.Varz stats)
             (Connz.mk (Connz.NumConns (Stats.Connz stats)) conns)
             (Stats.Rates stats) in
  (fold_left (fun text conn => text ++ connLine displaySubs conn) conns text, stats').

(** [cleanStats] (lines 274-278): every field at its zero value. *)
Variable zero : float64.
Definition cleanStats : Stats.t float64 :=
  Stats.mk (Varz.mk None zero 0 "" 0 0 0 0 0) (Connz.mk 0 [])
           (Rates.mk zero zero zero zero).

(** ** The goroutines around the loop

    [StartUI] runs three kinds of code at once: the loop itself, the
    goroutine [update] (lines 313-323), and the helper goroutines the loop
    starts.  A step of the program is one event through the loop, one
    receive from [redraw], one round of [update], or one stretch of a
    helper between two blocking calls; every step is tagged with who
    takes it. *)

Inductive Actor := EventLoop | UpdateGoroutine | HelperGoroutine.

Inductive step : UI -> Actor -> list Effect -> UI -> Prop :=
| step_event : forall e s s' out f,
    handle e s = (s', out, f) -> f <> Exit ->
    step s EventLoop out s'
| step_redraw_update : forall s,
    (* case <-redraw, sent by update() *)
    updateSending s = true ->
    step s EventLoop [UiRender] (set_updateSending false s)
| step_redraw_resize : forall s g1 g2,
    (* case <-redraw, sent by the goroutine of line 461 *)
    goroutines s = (g1 ++ RedrawSender :: g2)%list ->
    step s EventLoop [UiRender] (set_goroutines (g1 ++ g2)%list s)
| step_update : forall s stats,
    (* stats := <-statsCh; text = generateParagraph(...); par.Text = text *)
    updateSending s = false ->
    step s UpdateGoroutine []
         (set_updateSending true
            (set_parText (fst (generateParagraph (engine s) stats)) s))
| step_invalid_start : forall s g1 g2 s' out f,
    goroutines s = (g1 ++ InvalidOrder :: g2)%list ->
    invalidOrder_start (set_goroutines (g1 ++ InvalidOrderAsleep :: g2)%list s)
      = (s', out, f) ->
    step s HelperGoroutine out s'
| step_invalid_wake : forall s g1 g2 s' out f,
    goroutines s = (g1 ++ InvalidOrderAsleep :: g2)%list ->
    invalidOrder_wake (set_goroutines (g1 ++ g2)%list s) = (s', out, f) ->
    step s HelperGoroutine out s'.

(** The state in which [StartUI] enters its loop. *)
Definition start (g : Engine) : UI :=
  StartUI_init g (fst (generateParagraph g cleanStats)).

Inductive reachable (g : Engine) : UI -> Prop :=
| reachable_start : reachable g (start g)
| reachable_step : forall s a out s',
    reachable g s -> step s a out s' -> reachable g s'.

End Program.

(** ** [main]: from the flags to [StartUI] (lines 55-131)

    [main] reads files and the terminal and may stop the process: a run is
    the list of what it did to the outside, in order, and either the way
    the process stopped or a value to go on with. *)

Module Main.

(** The flags after [flag.Parse] (lines 24-38). *)
Record Flags := mkFlags {
  host : string;
  port : Z;
  conns : Z;
  delay : Z;
  sortBy : string;
  showVersion : bool;
  httpsPort : Z;
  certOpt : string;
  keyOpt : string;
  caCertOpt : string;
  skipVerifyOpt : bool
}.

(** The defaults of the flags. *)
Definition defaults : Flags :=
  mkFlags "127.0.0.1" 8222 1024 1 "cid" false 0 "" "" "" false.

(** What the outside answers: [ioutil.ReadFile] gives the bytes or an
    error, [tls.LoadX509KeyPair] and [ui.Init] an error or none. *)
Record World := mkWorld {
  ReadFile : string -> string + string;
  LoadX509KeyPair : string -> string -> option string;
  Init : option string
}.

Inductive Action :=
| Log (text : string)                 (* a line on the logger *)
| Read (path : string)                (* ioutil.ReadFile *)
| Load (certFile keyFile : string)    (* tls.LoadX509KeyPair *)
| UiInit.                             (* ui.Init *)

(** The fields of [tls.Config] that [main] sets: the bytes given to the
    pool of root certificates, the key pairs loaded, by their two files,
    and [InsecureSkipVerify]. *)
Record tlsConfig := mkTls {
  RootCAs : option string;
  Certificates : list (string * string);
  InsecureSkipVerify : bool
}.

(** How [main] ends: [os.Exit], a panic, or the call of [StartUI] with the
    engine, its [Uri] and the TLS configuration of its [HttpClient], if
    any. *)
Inductive Outcome :=
| Exited (code : Z)
| Panicked (err : string)
| Started (engine : Engine) (Uri : string) (tls : option tlsConfig).

Definition Run (A : Type) : Type := list Action * (Outcome + A).

Definition ret {A : Type} (a : A) : Run A := ([], inr a).
Definition stop {A : Type} (o : Outcome) : Run A := ([], inl o).
Definition act (a : Action) : Run unit := ([a], inr tt).
Definition bind {A B : Type} (m : Run A) (k : A -> Run B) : Run B :=
  match m with
  | (t, inl o) => (t, inl o)
  | (t, inr a) => let (t', r) := k a in ((t ++ t')%list, r)
  end.

Declare Scope run_scope.
Delimit Scope run_scope with run.
Notation "x <- a ;; b" := (bind a (fun x => b))
  (at level 61, a at next level, right associativity) : run_scope.
Notation "a ;; b" := (bind a (fun _ => b))
  (at level 61, right associativity) : run_scope.
Local Open Scope run_scope.

Fixpoint ends_with_newline (s : string) : bool :=
  match s with
  | EmptyString => false
  | String c EmptyString => (GoString.code c =? 10)
  | String _ s' => ends_with_newline s'
  end.

(** The logger with no flags ([log.SetFlags(0)]): the text, and a newline
    when the text does not end with one. *)
Definition log_Printf (text : string) : Run unit :=
  act (Log (if ends_with_newline text then text else text ++ LF)).

(** [log.Fatalf]: the line, then [os.Exit(1)]. *)
Definition log_Fatalf {A : Type} (text : string) : Run A :=
  log_Printf text ;; stop (Exited 1).

Definition version : string := "0.2.0".

Definition usageHelp : string :=
  LF ++ "usage: nats-top [-s server] [-m http_port] [-ms https_port] [-n num_connections] [-d delay_secs] [-sort by]"
  ++ LF ++ "                [-cert FILE] [-key FILE ][-cacert FILE] [-k]" ++ LF.

(** [usage] (lines 45-47) *)
Definition usage {A : Type} : Run A := log_Fatalf usageHelp.

(** Lines 68-93: the TLS configuration behind the secure port. *)
Definition tlsSetup (f : Flags) (w : World) : Run tlsConfig :=
  roots <-
    (if negb (caCertOpt f =? "")%string then
       act (Read (caCertOpt f)) ;;
       match ReadFile w (caCertOpt f) with
       | inr err => (log_Fatalf ("Error: " ++ err) : Run unit) ;; usage
       | inl caCert => ret (Some caCert)
       end
     else ret None) ;;
  certs <-
    (if negb (certOpt f =? "")%string && negb (keyOpt f =? "")%string then
       act (Load (certOpt f) (keyOpt f)) ;;
       match LoadX509KeyPair w (certOpt f) (keyOpt f) with
       | Some err => (log_Fatalf ("Error: " ++ err) : Run unit) ;; usage
       | None => ret [(certOpt f, keyOpt f)]
       end
     else ret []) ;;
  ret (mkTls roots certs (skipVerifyOpt f)).

(** [main] *)
Definition main (f : Flags) (w : World) : list Action * Outcome :=
  let run : Run Outcome :=
    (if showVersion f then
       log_Printf ("nats-top v" ++ version) ;; (stop (Exited 0) : Run unit)
     else ret tt) ;;
    client <-
      (if negb (httpsPort f =? 0) then
         cfg <- tlsSetup f w ;;
         ret (Some cfg, "https://" ++ host f ++ ":" ++ fmt.verb_d (httpsPort f))
       else
         ret (None, "http://" ++ host f ++ ":" ++ fmt.verb_d (port f))) ;;
    (if (host f =? "")%string then
       (log_Fatalf ("Please specify the monitoring endpoint for NATS." ++ LF) : Run unit) ;;
       usage
     else ret tt) ;;
    (if (port f =? 0) && (httpsPort f =? 0) then
       (log_Fatalf ("Please specify the monitoring port for NATS." ++ LF) : Run unit) ;;
       usage
     else ret tt) ;;
    (if validSortOpt (sortBy f) then ret tt
     else
       log_Printf ("nats-top: not a valid option to sort by: " ++ sortBy f ++ LF) ;;
       usage) ;;
    act UiInit ;;
    match Init w with
    | Some err => stop (Panicked err)
    | None =>
      ret (Started (mkEngine (conns f) (delay f) (sortBy f) false)
                   (snd client) (fst client))
    end
  in
  match run with
  | (t, inl o) => (t, o)
  | (t, inr o) => (t, o)
  end.

End Main.

(** * Properties *)

(** ** Facts about strings *)

Lemma append_assoc (a b c : string) : (a ++ b) ++ c = a ++ (b ++ c).
Proof. induction a as [|x a IH]; simpl; [reflexivity | rewrite IH; reflexivity]. Qed.

Lemma append_nil_r (a : string) : a ++ "" = a.
Proof. induction a as [|x a IH]; simpl; [reflexivity | rewrite IH; reflexivity]. Qed.

Lemma length_append (a b : string) :
  String.length (a ++ b) = (String.length a + String.length b)%nat.
Proof. induction a as [|x a IH]; simpl; [reflexivity | rewrite IH; reflexivity]. Qed.

Lemma drop_last_app b c : GoString.drop_last (b ++ String c "") = b.
Proof.
  induction b as [|a b IH]; simpl; [reflexivity|].
  rewrite IH. destruct b; reflexivity.
Qed.

(** [string(r)] is never the empty string. *)
Lemma of_rune_not_empty r : GoString.of_rune r <> "".
Proof.
  unfold GoString.of_rune.
  repeat match goal with |- context [if ?c then _ else _] => destruct c end;
    discriminate.
Qed.

(** ** A logic of statements

    [triple P c Q]: from a state in [P], the statement [c] ends in a state
    in [Q], however it leaves (falling through, [continue], or exit). *)

Definition triple (P : UI -> Prop) (c : Stmt) (Q : UI -> Prop) : Prop :=
  forall s s' o f, P s -> c s = (s', o, f) -> Q s'.

Definition preserves (I : UI -> Prop) (c : Stmt) : Prop :=
  forall s s' o f, I s -> c s = (s', o, f) -> I s'.

Lemma triple_seq (P Q R : UI -> Prop) (a b : Stmt) :
  triple P a Q -> triple Q b R -> (forall s, Q s -> R s) ->
  triple P (a ;; b) R.
Proof.
  intros Ha Hb HQR s s' o f Hs H. unfold seq in H.
  destruct (a s) as [[s1 o1] f1] eqn:Ea.
  destruct f1; [destruct (b s1) as [[s2 o2] f2] eqn:Eb | | ];
    injection H as <- <- <-.
  - eapply Hb; [eapply Ha; eassumption | eassumption].
  - eapply HQR, Ha; eassumption.
  - eapply HQR, Ha; eassumption.
Qed.

Lemma preserves_seq (I : UI -> Prop) (a b : Stmt) :
  preserves I a -> preserves I b -> preserves I (a ;; b).
Proof.
  intros Ha Hb s s' o f Hs H. unfold seq in H.
  destruct (a s) as [[s1 o1] f1] eqn:Ea.
  destruct f1; [destruct (b s1) as [[s2 o2] f2] eqn:Eb | | ];
    injection H as <- <- <-.
  - eapply Hb; [eapply Ha; eassumption | eassumption].
  - eapply Ha; eassumption.
  - eapply Ha; eassumption.
Qed.

(** Unfolds the statements of the loop on a state given field by field. *)
Ltac stmt_unfold :=
  cbv beta iota zeta delta
    [handle sortOption limitOption quit toggleSubscriptions leaveHelp
     askSortOption askLimitOption showHelp resize editOptionBuf
     refreshOptionHeader cleanExit clearScreen invalidOrder_start
     invalidOrder_wake isBackspace
     seq If When skip assign emit continue_ exit_ go_
     set_engine set_viewMode set_waitingSortOption set_waitingLimitOption
     set_displaySubscriptions set_optionBuf set_bodyRows set_parText
     set_goroutines set_updateSending
     engine viewMode waitingSortOption waitingLimitOption
     displaySubscriptions optionBuf bodyRows parText goroutines
     updateSending] in *.

(** Splits on every condition that the statements test. *)
Ltac stmt_cases :=
  repeat (stmt_unfold;
          match goal with
          | H : context [if ?c then _ else _] |- _ => destruct c eqn:?
          | H : context [match ?c with Some _ => _ | None => _ end] |- _ => destruct c eqn:?
          | H : (_, _, _) = (_, _, _) |- _ => inversion H; subst; clear H
          end).

(** Closes a goal about the boolean flags. *)
Ltac bool_crush :=
  repeat match goal with
         | H : _ && _ = true |- _ => apply andb_true_iff in H; destruct H
         | H : negb _ = true |- _ => apply negb_true_iff in H
         | H : _ || _ = false |- _ => apply orb_false_iff in H; destruct H
         end;
  subst; simpl in *; try congruence;
  repeat match goal with b : bool |- _ => destruct b end;
  simpl in *; congruence.

(** ** Insertion sort meets the contract of [sort.Sort] *)

Lemma StronglySorted_snoc (A : Type) (R : A -> A -> Prop) (l : list A) (x : A) :
  StronglySorted R l -> Forall (fun y => R y x) l -> StronglySorted R (l ++ [x])%list.
Proof.
  induction l as [|a l IH]; simpl; intros Hs Hf.
  - constructor; constructor.
  - apply StronglySorted_inv in Hs; destruct Hs as [Hs Ha].
    apply Forall_cons_iff in Hf; destruct Hf as [Hax Hf].
    constructor; [apply IH; assumption|].
    apply Forall_app; split; [assumption | constructor; [assumption | constructor]].
Qed.

Section InsertionSort.

Variable A : Type.
Variable less : A -> A -> bool.

Lemma insert_permutes x rp : Permutation (x :: rp) (sort.insert less x rp).
Proof.
  induction rp as [|y rp IH]; simpl.
  - apply Permutation_refl.
  - destruct (less x y).
    + eapply perm_trans; [apply perm_swap | apply perm_skip, IH].
    + apply Permutation_refl.
Qed.

Lemma fold_insert_permutes l rp :
  Permutation (rev l ++ rp)%list (fold_left (fun rp x => sort.insert less x rp) l rp).
Proof.
  revert rp; induction l as [|x l IH]; intros rp; simpl.
  - apply Permutation_refl.
  - eapply perm_trans; [|apply IH].
    rewrite <- app_assoc; simpl.
    apply Permutation_app_head, insert_permutes.
Qed.

Lemma insertionSort_permutes l : Permutation l (sort.insertionSort A less l).
Proof.
  unfold sort.insertionSort.
  eapply perm_trans; [|apply Permutation_rev].
  eapply perm_trans; [|apply fold_insert_permutes].
  rewrite app_nil_r. apply Permutation_rev.
Qed.

(** The prefix kept last element first is in the order of [Reverse less]. *)
Definition descending (rp : list A) : Prop :=
  StronglySorted (fun a b => less a b = false) rp.

Hypothesis Hless : sort.weak_order less.

Lemma insert_descending x rp : descending rp -> descending (sort.insert less x rp).
Proof.
  destruct Hless as [Hasym Htrans].
  unfold descending.
  induction rp as [|y rp IH]; intros Hs; simpl.
  - constructor; constructor.
  - apply StronglySorted_inv in Hs; destruct Hs as [Hs Hy].
    destruct (less x y) eqn:Exy.
    + constructor; [apply IH, Hs|].
      rewrite Forall_forall in *; intros z Hz.
      apply (Permutation_in _ (Permutation_sym (insert_permutes x rp))) in Hz.
      destruct Hz as [<-|Hz]; [apply Hasym, Exy | apply Hy, Hz].
    + constructor; [constructor; assumption|].
      constructor; [assumption|].
      rewrite Forall_forall in *; intros z Hz.
      apply (Htrans z y x); [apply Hy, Hz | assumption].
Qed.

Lemma fold_insert_descending l rp :
  descending rp -> descending (fold_left (fun rp x => sort.insert less x rp) l rp).
Proof.
  revert rp; induction l as [|x l IH]; intros rp Hs; simpl; auto using insert_descending.
Qed.

Lemma descending_rev rp : descending rp -> sort.ordered less (rev rp).
Proof.
  unfold descending, sort.ordered.
  induction rp as [|y rp IH]; intros Hs; simpl.
  - constructor.
  - apply StronglySorted_inv in Hs; destruct Hs as [Hs Hy].
    apply StronglySorted_snoc; [apply IH, Hs | apply Forall_rev, Hy].
Qed.

Lemma insertionSort_orders l : sort.ordered less (sort.insertionSort A less l).
Proof.
  apply descending_rev, fold_insert_descending. constructor.
Qed.

End InsertionSort.

(** [sort.Sort] as the insertion sort it runs on short slices. *)
Definition insertion : sort.Algorithm :=
  sort.mkAlgorithm sort.insertionSort insertionSort_permutes insertionSort_orders.

(** Orders that compare an integer field meet what [sort.Sort] asks. *)
Lemma weak_order_key (A : Type) (key : A -> Z) :
  sort.weak_order (fun a b => key a <? key b).
Proof.
  split.
  - intros a b H. apply Z.ltb_lt in H. apply Z.ltb_ge. lia.
  - intros a b c H1 H2. apply Z.ltb_ge in H1, H2. apply Z.ltb_ge. lia.
Qed.

Lemma weak_order_Reverse (A : Type) (less : A -> A -> bool) :
  sort.weak_order less -> sort.weak_order (sort.Reverse less).
Proof.
  intros [Hasym Htrans]; split; unfold sort.Reverse.
  - intros a b H. apply Hasym, H.
  - intros a b c H1 H2. apply (Htrans c b a); assumption.
Qed.

Definition non_decreasing (l : list Z) : Prop := StronglySorted Z.le l.

Definition non_increasing (l : list Z) : Prop := StronglySorted Z.ge l.

Lemma ordered_key_non_decreasing (key : ConnInfo.t -> Z) l :
  sort.ordered (fun a b => key a <? key b) l -> non_decreasing (map key l).
Proof.
  unfold sort.ordered, non_decreasing.
  induction 1 as [|a l Hs IH Ha]; simpl; constructor; [exact IH|].
  rewrite Forall_map. eapply Forall_impl; [|exact Ha].
  simpl. intros b Hb. apply Z.ltb_ge in Hb. exact Hb.
Qed.

Lemma ordered_Reverse_key_non_increasing (key : ConnInfo.t -> Z) l :
  sort.ordered (sort.Reverse (fun a b => key a <? key b)) l -> non_increasing (map key l).
Proof.
  unfold sort.ordered, sort.Reverse, non_increasing.
  induction 1 as [|a l Hs IH Ha]; simpl; constructor; [exact IH|].
  rewrite Forall_map. eapply Forall_impl; [|exact Ha].
  simpl. intros b Hb. apply Z.ltb_ge in Hb. lia.
Qed.

(** ** A platform for concrete runs

    The snapshots of these runs carry no floating-point value other than
    zero, which [%.1f] prints as 0.0.  The engine is the one [main] builds
    from the default flags. *)

Module Demo.
Definition float64 : Type := unit.
Definition verb_f1 (_ : float64) : string := "0.0".
Definition int64 (_ : float64) : Z := 0.
(** [n / unit] to one decimal place, rounded to the nearest tenth and to
    the even one half way, as [%.1f] prints it. *)
Definition tenths (n unit : Z) : Z :=
  let q := (10 * n) / unit in
  let r := (10 * n) mod unit in
  if 2 * r <? unit then q
  else if unit <? 2 * r then q + 1
  else if Z.even q then q else q + 1.
Definition scaled (n unit : Z) (suffix : string) : string :=
  let t := tenths n unit in
  fmt.verb_d (t / 10) ++ "." ++ fmt.verb_d (t mod 10) ++ suffix.
(** Modelled from the spec: [util.Psize] is declared outside the sources;
    the spec has it show the raw count below 1024, and scale to K, M, G or
    T with one decimal place from there. *)
Definition Psize (n : Z) : string :=
  if n <? 1024 then fmt.verb_d n
  else if n <? 1024 * 1024 then scaled n 1024 "K"
  else if n <? 1024 * 1024 * 1024 then scaled n (1024 * 1024) "M"
  else if n <? 1024 * 1024 * 1024 * 1024 then scaled n (1024 * 1024 * 1024) "G"
  else scaled n (1024 * 1024 * 1024 * 1024) "T".
Definition alg : sort.Algorithm := insertion.
Definition engine0 : Engine := mkEngine 1024 1 SortByCid false.
Definition generateParagraph :=
  generateParagraph float64 verb_f1 int64 Psize alg.
Definition step := step float64 verb_f1 int64 Psize alg.
Definition start : UI := start float64 verb_f1 int64 Psize alg tt engine0.
Definition reachable := reachable float64 verb_f1 int64 Psize alg tt engine0.
(** The state after the loop has taken the events [evs] from the start. *)
Definition after (evs : list ui.Event) : UI := fst (fst (loop evs start)).
(** A connection with an id and a count of pending bytes. *)
Definition conn (cid pending : Z) : ConnInfo.t :=
  ConnInfo.mk cid "10.0.0.1" 4222 "" 0 pending 0 0 0 0 "go" "1.0" "1s" "" [].
(** A snapshot with the connections [conns]. *)
Definition stats (conns : list ConnInfo.t) : Stats.t float64 :=
  Stats.mk (Varz.mk None tt 0 "" 0 0 0 0 0)
           (Connz.mk (Z.of_nat (List.length conns)) conns)
           (Rates.mk tt tt tt tt).
End Demo.

(** ** The input modes *)

(** The two capture flags are not both on. *)
Definition exclusive (s : UI) : Prop :=
  waitingSortOption s && waitingLimitOption s = false.

(** One of the two capture flags is on. *)
Definition awaiting (s : UI) : bool := waitingSortOption s || waitingLimitOption s.

Lemma handle_exclusive e : preserves exclusive (handle e).
Proof.
  unfold handle.
  repeat apply preserves_seq;
  intros [g v ws wl ds buf br pt gs us] s' o f HI H; unfold exclusive in *;
  stmt_cases; stmt_unfold; auto.
  all: bool_crush.
Qed.

Section ProgramProperties.

Variable float64 : Type.
Variable verb_f1 : float64 -> string.
Variable int64 : float64 -> Z.
Variable Psize : Z -> string.
Variable alg : sort.Algorithm.

Local Abbreviation step := (step float64 verb_f1 int64 Psize alg).

Lemma step_exclusive s a out s' : step s a out s' -> exclusive s -> exclusive s'.
Proof.
  intros Hstep HI.
  destruct Hstep as [e s s' out f H _ | s _ | s g1 g2 _ | s stats _
                    | s g1 g2 s' out f _ H | s g1 g2 s' out f _ H].
  - eapply handle_exclusive; eassumption.
  - exact HI.
  - exact HI.
  - exact HI.
  - destruct s as [g v ws wl ds buf br pt gs us]; unfold exclusive in *.
    stmt_cases; stmt_unfold; reflexivity.
  - destruct s as [g v ws wl ds buf br pt gs us]; unfold exclusive in *.
    stmt_cases; stmt_unfold; exact HI.
Qed.

(** C2: on enter in sort capture with a buffer [B] that is no sort option,
    the loop leaves the engine as it is and starts the goroutine of lines
    361-369; that goroutine prints "invalid order: B", turns the capture off
    and sleeps for one second, then blanks the prompt and empties the
    buffer.  The sort option is the old one in every state on the way, and
    at the end neither capture is on and the buffer is empty. *)
Theorem invalid_sort_token_rejected e s :
  isEnter e = true ->
  waitingSortOption s = true -> waitingLimitOption s = false ->
  validSortOpt (optionBuf s) = false ->
  exists s1 s2 s3,
    handle e s = (s1, [], Continue)
    /\ step s EventLoop [] s1
    /\ step s1 HelperGoroutine
         [Printf (at_prompt ++ "invalid order: " ++ optionBuf s ++ "       ");
          Sleep (1 * Second)] s2
    /\ step s2 HelperGoroutine
         [Printf (at_prompt ++ GoString.spaces 18 ++ "  "
                  ++ GoString.spaces (2 * String.length (optionBuf s))%nat)] s3
    /\ (engine s1 = engine s /\ engine s2 = engine s /\ engine s3 = engine s)
    /\ (waitingSortOption s2 = false /\ optionBuf s2 = optionBuf s)
    /\ waitingSortOption s3 = false /\ waitingLimitOption s3 = false
    /\ optionBuf s3 = "" /\ viewMode s3 = viewMode s
    /\ goroutines s3 = goroutines s.
Proof.
  destruct s as [g v ws wl ds buf br pt gs us]; simpl.
  intros He -> -> Hbuf.
  assert (H1 : handle e (mkUI g v true false ds buf br pt gs us)
               = (mkUI g v true false ds buf br pt (gs ++ [InvalidOrder])%list us,
                  [], Continue)).
  { stmt_unfold. rewrite He, Hbuf. reflexivity. }
  exists (mkUI g v true false ds buf br pt (gs ++ [InvalidOrder])%list us),
         (mkUI g v false false ds buf br pt (gs ++ [InvalidOrderAsleep])%list us),
         (mkUI g v false false ds "" br pt gs us).
  split; [exact H1|].
  split; [eapply step_event; [exact H1 | discriminate]|].
  split; [eapply (step_invalid_start _ _ _ _ _ _ gs []); reflexivity|].
  split; [eapply (step_invalid_wake _ _ _ _ _ _ gs []); [reflexivity|];
          stmt_unfold; rewrite app_nil_r; reflexivity|].
  simpl. repeat split; reflexivity.
Qed.

(** C10, amended: a step of a goroutine other than the loop leaves the
    engine (sort option, limit, [DisplaySubs]), the view, [waitingLimitOption],
    [displaySubscriptions] and [ui.Body.Rows] alone and never calls
    [ui.Render]; the goroutine [update] writes the text of the paragraph and
    nothing else; the goroutine of lines 361-369 may turn
    [waitingSortOption] off and empty [optionBuf], and writes nothing else. *)
Theorem goroutine_steps_frame s a out s' :
  step s a out s' -> a <> EventLoop ->
  engine s' = engine s /\ viewMode s' = viewMode s
  /\ waitingLimitOption s' = waitingLimitOption s
  /\ displaySubscriptions s' = displaySubscriptions s
  /\ bodyRows s' = bodyRows s
  /\ ~ In UiRender out
  /\ (a = UpdateGoroutine ->
      waitingSortOption s' = waitingSortOption s /\ optionBuf s' = optionBuf s)
  /\ (a = HelperGoroutine ->
      parText s' = parText s
      /\ (waitingSortOption s' = waitingSortOption s \/ waitingSortOption s' = false)
      /\ (optionBuf s' = optionBuf s \/ optionBuf s' = "")).
Proof.
  intros Hstep Ha.
  destruct Hstep as [e s s' out f H _ | s _ | s g1 g2 _ | s stats _
                    | s g1 g2 s' out f _ H | s g1 g2 s' out f _ H];
    try congruence.
  - destruct s; simpl. repeat split; try tauto; discriminate.
  - destruct s as [g v ws wl ds buf br pt gs us].
    stmt_cases; stmt_unfold.
    repeat split; try tauto; try discriminate.
    intros [H|[H|[]]]; discriminate.
  - destruct s as [g v ws wl ds buf br pt gs us].
    stmt_cases; stmt_unfold.
    repeat split; try tauto; try discriminate.
    intros [H|[]]; discriminate.
Qed.

Variable zero : float64.

Local Abbreviation reachable := (reachable float64 verb_f1 int64 Psize alg zero).

(** C1: in every state the program reaches from the start of [StartUI],
    through any sequence of events and any steps of the goroutines in
    between, [waitingSortOption] and [waitingLimitOption] are not both
    true. *)
Theorem awaiting_modes_exclusive g s :
  reachable g s -> waitingSortOption s && waitingLimitOption s = false.
Proof.
  induction 1 as [|s a out s' _ IH Hstep].
  - reflexivity.
  - eapply step_exclusive; eassumption.
Qed.

(** The states the loop goes through on a sequence of events are reachable. *)
Lemma reachable_loop g evs : forall s s' out,
  reachable g s -> loop evs s = (s', out, false) -> reachable g s'.
Proof.
  induction evs as [|e evs IH]; simpl; intros s s' out Hs H.
  - injection H as <- _. exact Hs.
  - destruct (handle e s) as [[s1 o1] f1] eqn:He.
    destruct (loop evs s1) as [[s2 o2] x] eqn:Hl.
    destruct f1; try discriminate; injection H as <- _ ->; 
      (eapply IH; [|eassumption]; eapply reachable_step; [exact Hs|];
       eapply step_event; [exact He | discriminate]).
Qed.

Lemma reachable_after g evs s :
  reachable g s -> snd (loop evs s) = false -> reachable g (fst (fst (loop evs s))).
Proof.
  intros Hs H. destruct (loop evs s) as [[s' out] x] eqn:E. simpl in *. subst x.
  eapply reachable_loop; eassumption.
Qed.

End ProgramProperties.

(** C1 at the state after the key [o]: sort capture is on, limit capture
    is off. *)
Lemma awaiting_modes_exclusive_witness :
  Demo.reachable (Demo.after (ui.typed "o"))
  /\ waitingSortOption (Demo.after (ui.typed "o")) = true
  /\ waitingSortOption (Demo.after (ui.typed "o"))
     && waitingLimitOption (Demo.after (ui.typed "o")) = false.
Proof.
  assert (H : Demo.reachable (Demo.after (ui.typed "o"))).
  { apply reachable_after; [apply reachable_start | reflexivity]. }
  split; [exact H | split; [reflexivity|]].
  exact (awaiting_modes_exclusive _ _ _ _ _ _ _ _ H).
Defined.

(** C2 on the keys [o], [x], enter: "x" is no sort option; the sort option
    stays "cid". *)
Lemma invalid_sort_token_rejected_witness :
  let s := Demo.after (ui.typed "ox") in
  waitingSortOption s = true /\ optionBuf s = "x"
  /\ exists s1 s3 : UI,
       handle ui.enter s = (s1, [], Continue)
       /\ SortOpt (engine s3) = SortByCid /\ waitingSortOption s3 = false
       /\ optionBuf s3 = "".
Proof.
  split; [reflexivity|]. split; [reflexivity|].
  destruct (invalid_sort_token_rejected Demo.float64 Demo.verb_f1 Demo.int64
              Demo.Psize Demo.alg ui.enter
              (Demo.after (ui.typed "ox")) eq_refl eq_refl eq_refl eq_refl)
    as (s1 & s2 & s3 & H & _ & _ & _ & (_ & _ & Hg) & _ & Hw & _ & Hb & _).
  exists s1, s3. split; [exact H|]. split; [rewrite Hg; reflexivity|].
  split; assumption.
Defined.

(** C10 as stated fails: after [o], [x], enter the goroutine of lines
    361-369, not the loop, turns [waitingSortOption] off and later empties
    [optionBuf]; and the goroutine [update] writes the text of the
    paragraph. *)
Lemma helper_goroutines_write_shared_state :
  (exists s out s',
      Demo.reachable s /\ Demo.step s HelperGoroutine out s'
      /\ waitingSortOption s = true /\ waitingSortOption s' = false)
  /\ (exists s out s',
      Demo.reachable s /\ Demo.step s HelperGoroutine out s'
      /\ optionBuf s = "x" /\ optionBuf s' = "")
  /\ (exists s out s',
      Demo.reachable s /\ Demo.step s UpdateGoroutine out s'
      /\ (parText s =? parText s')%string = false).
Proof.
  assert (R1 : Demo.reachable (Demo.after (ui.typed "ox" ++ [ui.enter]))).
  { apply reachable_after; [apply reachable_start | reflexivity]. }
  assert (S1 : Demo.step (Demo.after (ui.typed "ox" ++ [ui.enter]))
                 HelperGoroutine
                 (snd (fst (invalidOrder_start
                    (set_goroutines [InvalidOrderAsleep]
                       (Demo.after (ui.typed "ox" ++ [ui.enter]))))))
                 (fst (fst (invalidOrder_start
                    (set_goroutines [InvalidOrderAsleep]
                       (Demo.after (ui.typed "ox" ++ [ui.enter]))))))).
  { eapply (step_invalid_start _ _ _ _ _ _ [] []); reflexivity. }
  split; [|split].
  - do 3 eexists. split; [exact R1|]. split; [exact S1|]. split; reflexivity.
  - do 3 eexists. split; [eapply reachable_step; [exact R1 | exact S1]|].
    split; [eapply (step_invalid_wake _ _ _ _ _ _ [] []); reflexivity|].
    split; reflexivity.
  - exists Demo.start. do 2 eexists. split; [apply reachable_start|].
    split; [apply (step_update _ _ _ _ _ _ (Demo.stats [Demo.conn 1 0])); reflexivity|].
    reflexivity.
Qed.

(** C10, amended, on the first step of the goroutine started by [o], [x],
    enter. *)
Lemma goroutine_steps_frame_witness :
  exists s out s',
    Demo.step s HelperGoroutine out s'
    /\ engine s' = engine s /\ waitingLimitOption s' = waitingLimitOption s
    /\ parText s' = parText s /\ ~ In UiRender out.
Proof.
  pose (s := Demo.after (ui.typed "ox" ++ [ui.enter])).
  pose (r := invalidOrder_start (set_goroutines [InvalidOrderAsleep] s)).
  assert (S1 : Demo.step s HelperGoroutine (snd (fst r)) (fst (fst r))).
  { eapply (step_invalid_start _ _ _ _ _ _ [] []); reflexivity. }
  destruct (goroutine_steps_frame _ _ _ _ _ _ _ _ _ S1)
    as (Hg & _ & Hl & _ & _ & Hr & _ & Hh); [discriminate|].
  destruct (Hh eq_refl) as (Hp & _).
  exists s, (snd (fst r)), (fst (fst r)).
  repeat split; assumption.
Defined.

(** ** The commit of a limit *)

(** What [Sscanf] with [%d] makes of some buffers: a sign is accepted, and
    so is text after the digits. *)
Example Sscanf_d_examples :
  fmt.Sscanf_d "5" = Some 5 /\ fmt.Sscanf_d "-5" = Some (-5)
  /\ fmt.Sscanf_d " +12abc" = Some 12 /\ fmt.Sscanf_d "" = None
  /\ fmt.Sscanf_d "abc" = None /\ fmt.Sscanf_d "-" = None
  /\ fmt.Sscanf_d "9223372036854775808" = None.
Proof. vm_compute. repeat split; reflexivity. Qed.

(** The value of the decimal digits [d] read after the value [acc]. *)
Fixpoint digits_value (d : Decimal.uint) (acc : Z) : Z :=
  match d with
  | Decimal.Nil => acc
  | Decimal.D0 l => digits_value l (10 * acc + 0)
  | Decimal.D1 l => digits_value l (10 * acc + 1)
  | Decimal.D2 l => digits_value l (10 * acc + 2)
  | Decimal.D3 l => digits_value l (10 * acc + 3)
  | Decimal.D4 l => digits_value l (10 * acc + 4)
  | Decimal.D5 l => digits_value l (10 * acc + 5)
  | Decimal.D6 l => digits_value l (10 * acc + 6)
  | Decimal.D7 l => digits_value l (10 * acc + 7)
  | Decimal.D8 l => digits_value l (10 * acc + 8)
  | Decimal.D9 l => digits_value l (10 * acc + 9)
  end.

Lemma scanDigits_string_of_uint d acc :
  fmt.scanDigits acc (NilEmpty.string_of_uint d) = digits_value d acc.
Proof.
  revert acc; induction d; intros acc; simpl; try reflexivity; apply IHd.
Qed.

Lemma digits_value_pos d acc :
  digits_value d (Z.pos acc) = Z.pos (Pos.of_uint_acc d acc).
Proof.
  revert acc; induction d; intros acc;
    cbn [digits_value Pos.of_uint_acc]; try reflexivity;
    rewrite <- IHd; f_equal; lia.
Qed.

Lemma digits_value_0 d : digits_value d 0 = Z.of_uint d.
Proof.
  unfold Z.of_uint.
  induction d; cbn [digits_value Pos.of_uint]; try reflexivity; try exact IHd;
    apply (digits_value_pos d).
Qed.

Lemma scanDigits_to_uint p :
  fmt.scanDigits 0 (NilEmpty.string_of_uint (Pos.to_uint p)) = Z.pos p.
Proof.
  rewrite scanDigits_string_of_uint, digits_value_0.
  unfold Z.of_uint. rewrite DecimalPos.Unsigned.of_to. reflexivity.
Qed.

Lemma to_uint_digit p :
  exists c s, NilEmpty.string_of_uint (Pos.to_uint p) = String c s
              /\ fmt.is_digit c = true.
Proof.
  pose proof (DecimalPos.Unsigned.of_to p) as H.
  destruct (Pos.to_uint p); simpl; try discriminate;
    do 2 eexists; (split; [reflexivity | reflexivity]).
Qed.

Lemma SkipSpace_digit fuel c s :
  fmt.is_digit c = true ->
  fmt.SkipSpace (S fuel) (String c s) = Some (String c s).
Proof.
  unfold fmt.is_digit. intros H.
  apply andb_true_iff in H; destruct H as [H1 H2].
  apply Z.leb_le in H1, H2.
  simpl. unfold GoString.DecodeRune.
  replace (GoString.code c <? 128) with true by (symmetry; apply Z.ltb_lt; lia).
  replace (GoString.code c =? 13) with false by (symmetry; apply Z.eqb_neq; lia).
  replace (GoString.code c =? 10) with false by (symmetry; apply Z.eqb_neq; lia).
  simpl.
  replace (fmt.isSpace (GoString.code c)) with false; [reflexivity|].
  symmetry. unfold fmt.isSpace.
  repeat (apply orb_false_iff; split);
    try (apply Z.eqb_neq; lia); apply andb_false_iff;
    first [left; apply Z.leb_gt; lia | right; apply Z.leb_gt; lia].
Qed.

(** [Sscanf] with [%d] reads back every 64-bit integer that [%d] prints. *)
Lemma Sscanf_d_verb_d n :
  - 2 ^ 63 <= n <= 2 ^ 63 - 1 -> fmt.Sscanf_d (fmt.verb_d n) = Some n.
Proof.
  intros Hn.
  assert (Hr : ((- 2 ^ 63 <=? n) && (n <=? 2 ^ 63 - 1)) = true).
  { apply andb_true_iff; split; apply Z.leb_le; lia. }
  unfold fmt.verb_d, fmt.Sscanf_d.
  destruct n as [|p|p]; [reflexivity| |].
  - simpl Z.to_int. simpl NilZero.string_of_int.
    destruct (to_uint_digit p) as (c & s & E & Hc).
    pose proof (scanDigits_to_uint p) as Hv.
    unfold NilZero.string_of_uint.
    destruct (Pos.to_uint p) eqn:Eu; try discriminate;
      rewrite <- Eu in *; rewrite E in *;
      rewrite SkipSpace_digit by exact Hc;
      (replace (fmt.is_sign c) with false
         by (revert Hc; clear; unfold fmt.is_digit, fmt.is_sign; intros H;
             apply andb_true_iff in H; destruct H as [H1 H2];
             apply Z.leb_le in H1, H2; symmetry; apply orb_false_iff;
             split; apply Z.eqb_neq; lia));
      unfold fmt.scanNumber; rewrite Hc, Hv, Hr; reflexivity.
  - simpl Z.to_int. simpl NilZero.string_of_int.
    destruct (to_uint_digit p) as (c & s & E & Hc).
    pose proof (scanDigits_to_uint p) as Hv.
    unfold NilZero.string_of_uint.
    destruct (Pos.to_uint p) eqn:Eu; try discriminate;
      rewrite <- Eu in *; rewrite E in *;
      (change (fmt.SkipSpace (S (String.length (String "-" (String c s))))
                 (String "-" (String c s)))
         with (Some (String "-" (String c s))));
      cbv beta iota; change (fmt.is_sign "-") with true; cbv beta iota;
      change (GoString.code "-" =? 45) with true;
      unfold fmt.scanNumber; rewrite Hc, Hv;
      change (- Z.pos p) with (Z.neg p); rewrite Hr; reflexivity.
Qed.

(** C3, amended: on enter in limit capture the buffer goes through
    [Sscanf] with [%d]; when that gives an integer [n], of either sign, the
    limit of the engine becomes [n], and when it fails the engine stays as it
    is; in both cases the capture ends, the buffer is emptied and the blanked
    prompt is the only output. *)
Theorem limit_commit e s :
  isEnter e = true ->
  waitingLimitOption s = true -> waitingSortOption s = false ->
  exists s',
    handle e s = (s', [Printf (at_prompt ++ GoString.spaces 18 ++ "  ")], Continue)
    /\ engine s' = match fmt.Sscanf_d (optionBuf s) with
                   | Some n => set_Conns n (engine s)
                   | None => engine s
                   end
    /\ waitingLimitOption s' = false /\ waitingSortOption s' = false
    /\ optionBuf s' = "" /\ viewMode s' = viewMode s.
Proof.
  destruct s as [g v ws wl ds buf br pt gs us]; simpl.
  intros He -> ->.
  stmt_unfold. rewrite He.
  destruct (fmt.Sscanf_d buf) as [n|]; eexists; (split; [reflexivity|]);
    simpl; repeat split; reflexivity.
Qed.

(** Every 64-bit integer, the negative ones included, becomes the limit
    when the buffer holds its decimal form. *)
Lemma limit_commit_signed e s n :
  isEnter e = true ->
  waitingLimitOption s = true -> waitingSortOption s = false ->
  - 2 ^ 63 <= n <= 2 ^ 63 - 1 -> optionBuf s = fmt.verb_d n ->
  Conns (engine (fst (fst (handle e s)))) = n.
Proof.
  destruct s as [g v ws wl ds buf br pt gs us]; simpl.
  intros He -> -> Hn ->.
  stmt_unfold. rewrite He, (Sscanf_d_verb_d n Hn). reflexivity.
Qed.

(** C3 as stated fails: the keys [n], [-], [5], enter store the limit -5. *)
Lemma limit_negative_stored :
  let s := Demo.after (ui.typed "n-5") in
  waitingLimitOption s = true /\ waitingSortOption s = false
  /\ optionBuf s = "-5"
  /\ Conns (engine (fst (fst (handle ui.enter s)))) = -5.
Proof. vm_compute. repeat split; reflexivity. Qed.

(** C3, amended, on the keys [n], [-], [5], enter. *)
Lemma limit_commit_witness :
  let s := Demo.after (ui.typed "n-5") in
  exists s', handle ui.enter s = (s', [Printf (at_prompt ++ GoString.spaces 18 ++ "  ")], Continue)
    /\ Conns (engine s') = -5 /\ waitingLimitOption s' = false /\ optionBuf s' = "".
Proof.
  destruct (limit_commit ui.enter (Demo.after (ui.typed "n-5"))
              eq_refl eq_refl eq_refl) as (s' & H & Hg & Hl & _ & Hb & _).
  exists s'. split; [exact H|]. split; [rewrite Hg; reflexivity|]. split; assumption.
Defined.

(** The scenario of the spec: [n], [5], enter set the limit to 5. *)
Example limit_scenario :
  Conns (engine (Demo.after (ui.typed "n5" ++ [ui.enter]))) = 5.
Proof. reflexivity. Qed.

(** ** Keys in the help view *)

(** C4 fails on the code: in the help view, reached by the key [h], with no
    capture on, the key [s] turns [DisplaySubs] on before the view goes
    back to the top view. *)
Theorem help_key_s_toggles_subscriptions :
  let s := Demo.after (ui.typed "h") in
  viewMode s = HelpViewMode
  /\ waitingSortOption s = false /\ waitingLimitOption s = false
  /\ DisplaySubs (engine s) = false
  /\ exists s', handle (ui.char "s") s = (s', [], Continue)
       /\ viewMode s' = TopViewMode /\ DisplaySubs (engine s') = true.
Proof.
  vm_compute. repeat split; try reflexivity.
  eexists; repeat split; reflexivity.
Qed.

(** Any other key than [s] and the quit keys leaves the help view and the
    engine as it was. *)
Lemma help_other_keys_leave_config e s :
  ui.isKey e = true -> isQuit e = false -> ui.Ch e <> rune "s" ->
  viewMode s = HelpViewMode ->
  waitingSortOption s = false -> waitingLimitOption s = false ->
  exists s', handle e s = (s', [], Continue)
    /\ viewMode s' = TopViewMode /\ engine s' = engine s.
Proof.
  destruct s as [g v ws wl ds buf br pt gs us]; simpl.
  intros Hk Hq Hs -> -> ->.
  apply Z.eqb_neq in Hs.
  stmt_unfold. rewrite Hq, Hk, Hs. simpl.
  eexists; repeat split; reflexivity.
Qed.

(** ** Editing the buffer of a capture *)

(** What lines 380-385 (and 406-411) make of the buffer [B]. *)
Definition edited (e : ui.Event) (B : string) : string :=
  if ui.isKey e && (0 <? GoString.len B)
     && ((ui.Key e =? ui.KeyBackspace) || (ui.Key e =? ui.KeyBackspace2))
  then GoString.drop_last B
  else B ++ GoString.of_rune (ui.Ch e).

(** The statements after the two capture blocks leave the buffer of a
    capture alone. *)
Lemma commands_keep_buffer e B :
  preserves (fun s => optionBuf s = B /\ awaiting s = true)
    (quit e ;; toggleSubscriptions e ;; leaveHelp e ;; askSortOption e ;;
     askLimitOption e ;; showHelp e ;; resize e).
Proof.
  repeat apply preserves_seq;
    intros [g v ws wl ds buf br pt gs us] s' o f [HB HA] H;
    unfold awaiting in *; simpl in HB, HA; subst buf;
    stmt_cases; stmt_unfold;
    first [split; [reflexivity | bool_crush] | exfalso; bool_crush].
Qed.

(** In a capture, every event that is not enter edits the buffer as
    [edited] says. *)
Lemma awaiting_edit e s :
  isEnter e = false -> exclusive s -> awaiting s = true ->
  optionBuf (fst (fst (handle e s))) = edited e (optionBuf s).
Proof.
  intros He Hx Ha.
  destruct (handle e s) as [[s' o] f] eqn:H; simpl.
  revert H. unfold handle.
  pose (Q1 := fun t => optionBuf t = edited e (optionBuf s)
                       /\ awaiting t = true /\ waitingLimitOption t = false).
  pose (Q2 := fun t => optionBuf t = edited e (optionBuf s) /\ awaiting t = true).
  intros H.
  cut (Q2 s'); [intros [HB _]; exact HB|].
  destruct (waitingSortOption s) eqn:Hws.
  - refine (triple_seq (eq s) Q1 Q2 _ _ _ _ _ s s' o f eq_refl H).
    + intros t t' o' f' <-. revert Hx Ha Hws.
      destruct s as [g v ws wl ds buf br pt gs us]; unfold exclusive, awaiting, Q1, edited; simpl.
      intros Hx Ha ->. simpl in Hx. subst wl.
      stmt_unfold. rewrite He.
      destruct (ui.isKey e && (0 <? GoString.len buf)
                && ((ui.Key e =? ui.KeyBackspace) || (ui.Key e =? ui.KeyBackspace2)));
        intros H'; injection H' as <- _ _; simpl; auto.
    + apply triple_seq with (Q := Q2).
      * intros [g v ws wl ds buf br pt gs us] t' o' f'; unfold Q1, Q2, awaiting; simpl.
        intros (HB & HA & ->). stmt_unfold. intros H'; injection H' as <- _ _. auto.
      * apply commands_keep_buffer.
      * auto.
    + unfold Q1, Q2; tauto.
  - assert (Hskip : sortOption e s = (s, [], Fall)).
    { revert Hws. destruct s as [g v ws wl ds buf br pt gs us]; simpl.
      intros ->. reflexivity. }
    unfold seq at 1 in H. rewrite Hskip in H.
    destruct ((limitOption e ;; quit e ;; toggleSubscriptions e ;; leaveHelp e ;;
               askSortOption e ;; askLimitOption e ;; showHelp e ;; resize e) s)
      as [[s2 o2] f2] eqn:H2.
    injection H as <- _ _.
    refine (triple_seq (eq s) Q2 Q2 _ _ _ _ _ s s2 o2 f2 eq_refl H2).
    + intros t t' o' f' <-. revert Hx Ha Hws.
      destruct s as [g v ws wl ds buf br pt gs us];
        unfold exclusive, awaiting, Q2, edited; simpl.
      intros Hx Ha ->. simpl in Ha. subst wl.
      stmt_unfold. rewrite He.
      destruct (ui.isKey e && (0 <? GoString.len buf)
                && ((ui.Key e =? ui.KeyBackspace) || (ui.Key e =? ui.KeyBackspace2)));
        intros H'; injection H' as <- _ _; simpl; auto.
    + apply commands_keep_buffer.
    + auto.
Qed.

(** Backspace on a buffer that is not empty removes its last byte. *)
Lemma backspace_removes_last_byte e s b c :
  ui.isKey e = true ->
  ui.Key e = ui.KeyBackspace \/ ui.Key e = ui.KeyBackspace2 ->
  exclusive s -> awaiting s = true ->
  optionBuf s = b ++ String c "" ->
  optionBuf (fst (fst (handle e s))) = b.
Proof.
  intros Hk Hb Hx Ha HB.
  assert (He : isEnter e = false).
  { unfold isEnter. destruct Hb as [-> | ->]; rewrite Hk; reflexivity. }
  rewrite awaiting_edit by assumption.
  unfold edited. rewrite HB, Hk.
  replace (0 <? GoString.len (b ++ String c "")) with true.
  - destruct Hb as [-> | ->]; simpl; apply drop_last_app.
  - symmetry. apply Z.ltb_lt. unfold GoString.len. rewrite length_append. simpl. lia.
Qed.

(** An event with no key appends [string(e.Ch)]. *)
Lemma character_is_appended e s :
  ui.Key e = 0 -> exclusive s -> awaiting s = true ->
  optionBuf (fst (fst (handle e s))) = optionBuf s ++ GoString.of_rune (ui.Ch e).
Proof.
  intros Hkey Hx Ha.
  assert (He : isEnter e = false).
  { unfold isEnter. rewrite Hkey. apply andb_false_r. }
  rewrite awaiting_edit by assumption.
  unfold edited. rewrite Hkey. simpl. rewrite andb_false_r. reflexivity.
Qed.

(** On an empty buffer the guard [len(optionBuf) > 0] sends every event
    to the [else] branch, backspace included. *)
Lemma backspace_on_empty e s :
  isEnter e = false -> exclusive s -> awaiting s = true -> optionBuf s = "" ->
  optionBuf (fst (fst (handle e s))) = GoString.of_rune (ui.Ch e).
Proof.
  intros He Hx Ha HB. rewrite awaiting_edit by assumption.
  rewrite HB. unfold edited. simpl. rewrite andb_false_r. reflexivity.
Qed.

(** C5 fails on the code: in sort capture with an empty buffer, backspace
    (whose [Ch] is 0) appends the byte 0, and the buffer has length 1. *)
Theorem backspace_on_empty_buffer_appends :
  let s := Demo.after (ui.typed "o") in
  waitingSortOption s = true /\ waitingLimitOption s = false
  /\ optionBuf s = ""
  /\ optionBuf (fst (fst (handle (ui.key ui.KeyBackspace) s))) = GoString.bytes [0]
  /\ GoString.len (optionBuf (fst (fst (handle (ui.key ui.KeyBackspace) s)))) = 1.
Proof. vm_compute. repeat split; reflexivity. Qed.

(** Backspace removes a byte, not a character: after [o], the rune U+00E9
    and backspace, the first byte of its encoding stays. *)
Example backspace_splits_a_rune :
  optionBuf (fst (fst (loop (ui.char "o" :: ui.mkEvent ui.EventKey 0 233
                             :: [ui.key ui.KeyBackspace]) Demo.start)))
  = GoString.bytes [0xC3].
Proof. reflexivity. Qed.

(** ** The rows of the paragraph *)

(** The rows under the header, one after the other. *)
Definition rows_text (line : ConnInfo.t -> string) (rows : list ConnInfo.t) : string :=
  fold_right (fun conn text => line conn ++ text) "" rows.

Lemma fold_left_rows line rows text :
  fold_left (fun text conn => text ++ line conn) rows text = text ++ rows_text line rows.
Proof.
  revert text; induction rows as [|c rows IH]; intros text; simpl.
  - symmetry; apply append_nil_r.
  - rewrite IH, append_assoc. reflexivity.
Qed.

Ltac unfold_sortConns := unfold sortConns.
Ltac unfold_generateParagraph := unfold generateParagraph.

Section FormatterProperties.

Variable float64 : Type.
Variable verb_f1 : float64 -> string.
Variable int64 : float64 -> Z.
Variable Psize : Z -> string.
Variable alg : sort.Algorithm.

Local Abbreviation generateParagraph :=
  (generateParagraph float64 verb_f1 int64 Psize alg).
Local Abbreviation sortConns := (sortConns alg).

Lemma sortConns_permutes opt conns : Permutation conns (sortConns opt conns).
Proof.
  unfold_sortConns.
  repeat match goal with |- context [if ?c then _ else _] => destruct c end;
    try apply sort.Sort_permutes. apply Permutation_refl.
Qed.

Lemma sortConns_ascending key opt conns :
  sortConns opt conns = sort.Sort alg _ (fun a b => key a <? key b) conns ->
  non_decreasing (map key (sortConns opt conns)).
Proof.
  intros ->. apply ordered_key_non_decreasing, sort.Sort_orders, weak_order_key.
Qed.

Lemma sortConns_descending key opt conns :
  sortConns opt conns
  = sort.Sort alg _ (sort.Reverse (fun a b => key a <? key b)) conns ->
  non_increasing (map key (sortConns opt conns)).
Proof.
  intros ->. apply ordered_Reverse_key_non_increasing, sort.Sort_orders.
  apply weak_order_Reverse, weak_order_key.
Qed.

(** C6: the text of [generateParagraph] is the server block, the header
    of the table, and one row per connection of the slice as the switch over
    the sort option leaves it; that slice is a permutation of the one in the
    snapshot; its ids do not decrease when the option is "cid", and for each
    of the six other options the field of that name does not increase. *)
Theorem rows_follow_sort_key g stats :
  let rows := Connz.Conns (Stats.Connz (snd (generateParagraph g stats))) in
  fst (generateParagraph g stats)
  = (serverText float64 verb_f1 int64 Psize stats ++ connRows (DisplaySubs g))
    ++ rows_text (connLine Psize (DisplaySubs g)) rows
  /\ Permutation (Connz.Conns (Stats.Connz stats)) rows
  /\ (SortOpt g = SortByCid -> non_decreasing (map ConnInfo.Cid rows))
  /\ (SortOpt g = SortBySubs -> non_increasing (map ConnInfo.NumSubs rows))
  /\ (SortOpt g = SortByPending -> non_increasing (map ConnInfo.Pending rows))
  /\ (SortOpt g = SortByOutMsgs -> non_increasing (map ConnInfo.OutMsgs rows))
  /\ (SortOpt g = SortByInMsgs -> non_increasing (map ConnInfo.InMsgs rows))
  /\ (SortOpt g = SortByOutBytes -> non_increasing (map ConnInfo.OutBytes rows))
  /\ (SortOpt g = SortByInBytes -> non_increasing (map ConnInfo.InBytes rows)).
Proof.
  unfold_generateParagraph; simpl.
  split; [apply fold_left_rows|].
  split; [apply sortConns_permutes|].
  repeat split; intros ->;
    first [apply sortConns_ascending | apply sortConns_descending]; reflexivity.
Qed.

(** C7, amended: [generateParagraph] leaves [Varz], [Rates] and [NumConns]
    of the snapshot as they are, and leaves in [Connz.Conns] a permutation
    of the connections that were there, in the order of the active sort
    option: ids that do not decrease for "cid", and for each of the six
    other options the field of that name not increasing; with a sort option
    that is none of the seven, the snapshot is unchanged. *)
Theorem generateParagraph_reorders_snapshot g stats :
  let stats' := snd (generateParagraph g stats) in
  let conns' := Connz.Conns (Stats.Connz stats') in
  Stats.Varz stats' = Stats.Varz stats
  /\ Stats.Rates stats' = Stats.Rates stats
  /\ Connz.NumConns (Stats.Connz stats') = Connz.NumConns (Stats.Connz stats)
  /\ Permutation (Connz.Conns (Stats.Connz stats)) conns'
  /\ (SortOpt g = SortByCid -> non_decreasing (map ConnInfo.Cid conns'))
  /\ (SortOpt g = SortBySubs -> non_increasing (map ConnInfo.NumSubs conns'))
  /\ (SortOpt g = SortByPending -> non_increasing (map ConnInfo.Pending conns'))
  /\ (SortOpt g = SortByOutMsgs -> non_increasing (map ConnInfo.OutMsgs conns'))
  /\ (SortOpt g = SortByInMsgs -> non_increasing (map ConnInfo.InMsgs conns'))
  /\ (SortOpt g = SortByOutBytes -> non_increasing (map ConnInfo.OutBytes conns'))
  /\ (SortOpt g = SortByInBytes -> non_increasing (map ConnInfo.InBytes conns'))
  /\ (validSortOpt (SortOpt g) = false -> stats' = stats).
Proof.
  unfold_generateParagraph; simpl.
  do 3 (split; [reflexivity|]).
  split; [apply sortConns_permutes|].
  split; [intros ->; apply sortConns_ascending; reflexivity|].
  do 6 (split; [intros ->; apply sortConns_descending; reflexivity|]).
  unfold validSortOpt; unfold_sortConns. intros H.
  repeat (apply orb_false_iff in H; destruct H as [H ?]).
  repeat match goal with H : _ = false |- _ => rewrite H; clear H end.
  destruct stats as [v [n c] r]. reflexivity.
Qed.

End FormatterProperties.

(** C7 as stated fails: with the option "cid", the connections 2, 1 of the
    snapshot are in the order 1, 2 after the call. *)
Lemma generateParagraph_sorts_in_place :
  let stats := Demo.stats [Demo.conn 2 500; Demo.conn 1 1500] in
  let stats' := snd (Demo.generateParagraph Demo.engine0 stats) in
  map ConnInfo.Cid (Connz.Conns (Stats.Connz stats)) = [2; 1]
  /\ map ConnInfo.Cid (Connz.Conns (Stats.Connz stats')) = [1; 2].
Proof. vm_compute. split; reflexivity. Qed.

(** C6 on the scenario of the spec: pending bytes 500 and 1500, sorted by
    "pending", come out as 1500, 500. *)
Lemma rows_follow_sort_key_witness :
  let g := set_SortOpt SortByPending Demo.engine0 in
  let stats := Demo.stats [Demo.conn 1 500; Demo.conn 2 1500] in
  map ConnInfo.Pending
    (Connz.Conns (Stats.Connz (snd (Demo.generateParagraph g stats)))) = [1500; 500]
  /\ non_increasing
       (map ConnInfo.Pending
          (Connz.Conns (Stats.Connz (snd (Demo.generateParagraph g stats))))).
Proof.
  split; [reflexivity|].
  refine (proj1 (proj2 (proj2 (proj2 (proj2
    (rows_follow_sort_key _ _ _ _ _ (set_SortOpt SortByPending Demo.engine0)
       (Demo.stats [Demo.conn 1 500; Demo.conn 2 1500])))))) eq_refl).
Defined.

(** ** Quit *)

(** How often the effects close the terminal, and the shutdown channel. *)
Definition restorations (out : list Effect) : nat :=
  List.length (filter (fun x => match x with UiClose => true | _ => false end) out).

Definition shutdowns (out : list Effect) : nat :=
  List.length (filter (fun x => match x with CloseShutdownCh => true | _ => false end) out).

(** A process that has exited did both exactly once; one that runs did
    neither. *)
Definition clean (out : list Effect) (exited : bool) : Prop :=
  if exited then shutdowns out = 1%nat /\ restorations out = 1%nat
  else shutdowns out = 0%nat /\ restorations out = 0%nat.

Definition exits (f : Flow) : bool := match f with Exit => true | _ => false end.

Definition accounted (c : Stmt) : Prop :=
  forall s s' o f, c s = (s', o, f) -> clean o (exits f).

Lemma restorations_app a b : restorations (a ++ b) = (restorations a + restorations b)%nat.
Proof. unfold restorations. rewrite filter_app, length_app. reflexivity. Qed.

Lemma shutdowns_app a b : shutdowns (a ++ b) = (shutdowns a + shutdowns b)%nat.
Proof. unfold shutdowns. rewrite filter_app, length_app. reflexivity. Qed.

Lemma clean_app a b x : clean a false -> clean b x -> clean (a ++ b) x.
Proof.
  unfold clean. intros [Ha1 Ha2]. rewrite shutdowns_app, restorations_app, Ha1, Ha2.
  destruct x; simpl; auto.
Qed.

Lemma accounted_seq a b : accounted a -> accounted b -> accounted (a ;; b).
Proof.
  intros Ha Hb s s' o f H. unfold seq in H.
  destruct (a s) as [[s1 o1] f1] eqn:Ea.
  destruct f1; [destruct (b s1) as [[s2 o2] f2] eqn:Eb | | ];
    injection H as <- <- <-.
  - apply clean_app; [apply (Ha _ _ _ _ Ea) | apply (Hb _ _ _ _ Eb)].
  - apply (Ha _ _ _ _ Ea).
  - apply (Ha _ _ _ _ Ea).
Qed.

Lemma handle_accounted e : accounted (handle e).
Proof.
  unfold handle.
  repeat apply accounted_seq;
    intros [g v ws wl ds buf br pt gs us] s' o f H;
    stmt_cases; stmt_unfold; split; reflexivity.
Qed.

Lemma loop_accounted evs : forall s s' out x,
  loop evs s = (s', out, x) -> clean out x.
Proof.
  induction evs as [|e evs IH]; simpl; intros s s' out x H.
  - injection H as _ <- <-. split; reflexivity.
  - destruct (handle e s) as [[s1 o1] f1] eqn:He.
    pose proof (handle_accounted e _ _ _ _ He) as Hc.
    destruct (loop evs s1) as [[s2 o2] x2] eqn:Hl.
    destruct f1; injection H as _ <- <-;
      try exact Hc; (apply clean_app; [exact Hc | eapply IH; exact Hl]).
Qed.

Lemma loop_app evs1 evs2 s :
  loop (evs1 ++ evs2) s =
  let '(s1, o1, x1) := loop evs1 s in
  if x1 then (s1, o1, true)
  else let '(s2, o2, x2) := loop evs2 s1 in (s2, (o1 ++ o2)%list, x2).
Proof.
  revert s; induction evs1 as [|e evs1 IH]; intros s; simpl.
  - destruct (loop evs2 s) as [[s2 o2] x2]. reflexivity.
  - destruct (handle e s) as [[s1 o1] f1].
    destruct f1; try reflexivity; rewrite IH;
      destruct (loop evs1 s1) as [[s2 o2] x2]; destruct x2; try reflexivity;
      destruct (loop evs2 s2) as [[s3 o3] x3]; rewrite app_assoc; reflexivity.
Qed.

(** A quit event of termui is not the enter key. *)
Lemma quit_is_not_enter e : isQuit e = true -> ui.well_formed e -> isEnter e = false.
Proof.
  destruct e as [t k c]; unfold isQuit, isEnter, ui.well_formed; simpl.
  intros Hq [-> | ->].
  - apply andb_false_r.
  - apply andb_true_iff in Hq; destruct Hq as [_ Hq].
    simpl in Hq. apply Z.eqb_eq in Hq. subst k. apply andb_false_r.
Qed.

Lemma quit_exits e s :
  isQuit e = true -> isEnter e = false -> exits (snd (handle e s)) = true.
Proof.
  intros Hq He.
  destruct s as [g v ws wl ds buf br pt gs us].
  stmt_unfold. rewrite He, Hq.
  destruct ws, wl;
    repeat match goal with |- context [if ?c then _ else _] => destruct c end;
    reflexivity.
Qed.

(** C8: whatever the state (either capture on or none, either view), a
    quit event, the key [q] or Ctrl-C, makes the loop exit, and the effects
    of that pass close the shutdown channel once and restore the terminal
    with [ui.Close] once; the same holds for the whole run of the loop on
    any events followed by the quit event. *)
Theorem quit_from_every_mode e s :
  isQuit e = true -> ui.well_formed e ->
  (exists s' out,
      handle e s = (s', out, Exit)
      /\ shutdowns out = 1%nat /\ restorations out = 1%nat)
  /\ (forall evs,
        exists s' out,
          loop (evs ++ [e]) s = (s', out, true)
          /\ shutdowns out = 1%nat /\ restorations out = 1%nat).
Proof.
  intros Hq Hwf.
  pose proof (quit_is_not_enter e Hq Hwf) as He.
  assert (Hh : forall t, exists t' out,
             handle e t = (t', out, Exit)
             /\ shutdowns out = 1%nat /\ restorations out = 1%nat).
  { intros t. pose proof (quit_exits e t Hq He) as Hx.
    destruct (handle e t) as [[t' out] f] eqn:H.
    pose proof (handle_accounted e _ _ _ _ H) as Hc.
    destruct f; try discriminate. exists t', out. split; [reflexivity | exact Hc]. }
  split; [apply Hh|].
  intros evs.
  destruct (loop (evs ++ [e]) s) as [[s' out] x] eqn:H.
  pose proof (loop_accounted _ _ _ _ _ H) as Hc.
  assert (Hx : x = true).
  { rewrite loop_app in H.
    destruct (loop evs s) as [[s1 o1] x1].
    destruct x1; [injection H as _ _ <-; reflexivity|].
    simpl in H. destruct (Hh s1) as (t' & o' & Ht & _). rewrite Ht in H.
    injection H as _ _ <-. reflexivity. }
  subst x. exists s', out. split; [reflexivity | exact Hc].
Qed.

(** C8 on Ctrl-C in the middle of a sort capture. *)
Lemma quit_from_every_mode_witness :
  let s := Demo.after (ui.typed "obyt") in
  waitingSortOption s = true
  /\ exists s' out, handle (ui.key ui.KeyCtrlC) s = (s', out, Exit)
       /\ shutdowns out = 1%nat /\ restorations out = 1%nat.
Proof.
  split; [reflexivity|].
  exact (proj1 (quit_from_every_mode (ui.key ui.KeyCtrlC)
                  (Demo.after (ui.typed "obyt")) eq_refl (or_intror eq_refl))).
Defined.

(** ** The scenario of the sort option *)

(** C9: from a state with no capture on, the top view and an empty buffer,
    the keys [o], [b], [y], [t], [e], [s], [_], [t], [o] leave the capture on
    with "bytes_to" in the buffer (the last [o] is appended) and the sort
    option untouched; enter then sets the sort option to "bytes_to" and ends
    the capture, and the loop has not exited. *)
Theorem typed_bytes_to_sets_sort_key s :
  waitingSortOption s = false -> waitingLimitOption s = false ->
  viewMode s = TopViewMode -> optionBuf s = "" ->
  let before := fst (fst (loop (ui.typed "obytes_to") s)) in
  let '(after, _, exited) := loop (ui.typed "obytes_to" ++ [ui.enter]) s in
  waitingSortOption before = true /\ optionBuf before = "bytes_to"
  /\ SortOpt (engine before) = SortOpt (engine s)
  /\ exited = false
  /\ SortOpt (engine after) = SortByOutBytes
  /\ waitingSortOption after = false /\ waitingLimitOption after = false
  /\ viewMode after = TopViewMode /\ optionBuf after = "".
Proof.
  destruct s as [g v ws wl ds buf br pt gs us]; simpl.
  intros -> -> -> ->.
  vm_compute. repeat split; reflexivity.
Qed.

(** C9 at the start of [StartUI]. *)
Lemma typed_bytes_to_sets_sort_key_witness :
  SortOpt (engine (Demo.after (ui.typed "obytes_to" ++ [ui.enter]))) = SortByOutBytes
  /\ waitingSortOption (Demo.after (ui.typed "obytes_to" ++ [ui.enter])) = false.
Proof.
  pose proof (typed_bytes_to_sets_sort_key Demo.start eq_refl eq_refl eq_refl eq_refl)
    as H.
  cbv zeta in H.
  destruct (loop (ui.typed "obytes_to" ++ [ui.enter]) Demo.start)
    as [[s' out] x] eqn:E.
  unfold Demo.after. rewrite E. simpl.
  destruct H as (_ & _ & _ & _ & Hs & Hw & _). split; assumption.
Defined.

(** * More of the program *)

(** ** Invariants of the whole program *)

(** The sort option of the engine is one of the seven. *)
Definition sortOpt_ok (s : UI) : Prop := validSortOpt (SortOpt (engine s)) = true.

(** The flag of the loop and the field of the engine agree. *)
Definition subs_in_sync (s : UI) : Prop :=
  displaySubscriptions s = DisplaySubs (engine s).

(** The grid on screen is the one of the view, and the help view has no
    capture on. *)
Definition view_ok (s : UI) : Prop :=
  bodyRows s = viewMode s
  /\ (viewMode s = HelpViewMode -> awaiting s = false).

(** A goroutine of lines 361-369 is in flight. *)
Definition invalidOrder_pending (s : UI) : bool :=
  existsb (fun g => match g with RedrawSender => false | _ => true end) (goroutines s).

(** With no capture on and no such goroutine in flight, the buffer is
    empty. *)
Definition idle_buffer_empty (s : UI) : Prop :=
  awaiting s = false -> invalidOrder_pending s = false -> optionBuf s = "".

Lemma handle_keeps_delay e d : preserves (fun s => Delay (engine s) = d) (handle e).
Proof.
  unfold handle.
  repeat apply preserves_seq;
    intros [g v ws wl ds buf br pt gs us] s' o f HI H;
    stmt_cases; stmt_unfold; simpl in *; auto.
Qed.

Lemma handle_sortOpt_ok e : preserves sortOpt_ok (handle e).
Proof.
  unfold handle.
  repeat apply preserves_seq;
    intros [g v ws wl ds buf br pt gs us] s' o f HI H; unfold sortOpt_ok in *;
    stmt_cases; stmt_unfold; simpl in *; auto.
Qed.

Lemma handle_subs_in_sync e : preserves subs_in_sync (handle e).
Proof.
  unfold handle.
  repeat apply preserves_seq;
    intros [g v ws wl ds buf br pt gs us] s' o f HI H; unfold subs_in_sync in *;
    stmt_cases; stmt_unfold; simpl in *; auto.
Qed.

Lemma handle_view_ok e : preserves view_ok (handle e).
Proof.
  unfold handle.
  repeat apply preserves_seq;
    intros [g v ws wl ds buf br pt gs us] s' o f [HI1 HI2] H;
    unfold view_ok, awaiting in *;
    stmt_cases; stmt_unfold; simpl in *;
    (split; [auto | try (intros; discriminate); try (intros Hv; bool_crush)]).
  all: try (intros Hv; specialize (HI2 Hv); bool_crush).
Qed.

Lemma handle_idle_buffer_empty e : preserves idle_buffer_empty (handle e).
Proof.
  unfold handle.
  repeat apply preserves_seq;
    intros [g v ws wl ds buf br pt gs us] s' o f HI H;
    unfold idle_buffer_empty, invalidOrder_pending, awaiting in *;
    stmt_cases; stmt_unfold; simpl in *;
    rewrite ?existsb_app in *; simpl in *; rewrite ?orb_false_r, ?orb_true_r in *;
    auto; try (intros; discriminate).
  all: try (intros Ha Hp; bool_crush).
  all: intros _ Hp; apply HI; [bool_crush | exact Hp].
Qed.

Ltac inv_unfold :=
  unfold sortOpt_ok, subs_in_sync, view_ok, idle_buffer_empty,
    invalidOrder_pending, awaiting in *; simpl in *.

Section Invariants.

Variable float64 : Type.
Variable verb_f1 : float64 -> string.
Variable int64 : float64 -> Z.
Variable Psize : Z -> string.
Variable alg : sort.Algorithm.

Local Abbreviation step := (step float64 verb_f1 int64 Psize alg).

(** A step that is not an event through the loop touches neither the
    engine, the view, the grid, nor the two flags behind [view_ok]. *)
Lemma step_keeps_delay s a out s' :
  step s a out s' -> Delay (engine s') = Delay (engine s).
Proof.
  intros Hstep.
  destruct Hstep as [e s s' out f H _ | s _ | s g1 g2 Hg | s stats _
                    | s g1 g2 s' out f Hg H | s g1 g2 s' out f Hg H].
  - apply (handle_keeps_delay e (Delay (engine s)) s s' out f eq_refl H).
  - destruct s; reflexivity.
  - destruct s; reflexivity.
  - destruct s; reflexivity.
  - destruct s as [g v ws wl ds buf br pt gs us]. stmt_cases; stmt_unfold. reflexivity.
  - destruct s as [g v ws wl ds buf br pt gs us]. stmt_cases; stmt_unfold. reflexivity.
Qed.

Lemma step_invariants s a out s' :
  step s a out s' ->
  (sortOpt_ok s -> sortOpt_ok s')
  /\ (subs_in_sync s -> subs_in_sync s')
  /\ (view_ok s -> view_ok s')
  /\ (idle_buffer_empty s -> idle_buffer_empty s').
Proof.
  intros Hstep.
  destruct Hstep as [e s s' out f H _ | s _ | s g1 g2 Hg | s stats _
                    | s g1 g2 s' out f Hg H | s g1 g2 s' out f Hg H].
  - split; [|split; [|split]]; intros HI.
    + eapply handle_sortOpt_ok; eassumption.
    + eapply handle_subs_in_sync; eassumption.
    + eapply handle_view_ok; eassumption.
    + eapply handle_idle_buffer_empty; eassumption.
  - destruct s; inv_unfold; tauto.
  - destruct s as [g v ws wl ds buf br pt gs us]; simpl in Hg; subst gs.
    inv_unfold. rewrite !existsb_app; simpl. tauto.
  - destruct s; inv_unfold; tauto.
  - destruct s as [g v ws wl ds buf br pt gs us]; simpl in Hg; subst gs.
    stmt_cases; stmt_unfold; inv_unfold.
    rewrite !existsb_app; simpl. rewrite !orb_true_r.
    split; [tauto|]. split; [tauto|]. split.
    + intros [Hb HI]; split; [exact Hb|]. intros Hv. specialize (HI Hv). bool_crush.
    + intros _ _ Hp. discriminate.
  - destruct s as [g v ws wl ds buf br pt gs us]; simpl in Hg; subst gs.
    stmt_cases; stmt_unfold; inv_unfold. tauto.
Qed.

Variable zero : float64.

Local Abbreviation reachable := (reachable float64 verb_f1 int64 Psize alg zero).

Lemma reachable_invariants g s :
  reachable g s ->
  (validSortOpt (SortOpt g) = true -> sortOpt_ok s)
  /\ (DisplaySubs g = false -> subs_in_sync s)
  /\ view_ok s
  /\ idle_buffer_empty s.
Proof.
  induction 1 as [|s a out s' _ IH Hstep].
  - inv_unfold. repeat split; auto; discriminate.
  - destruct (step_invariants _ _ _ _ Hstep) as (H1 & H2 & H3 & H4).
    destruct IH as (I1 & I2 & I3 & I4). repeat split; auto.
    + apply H3, I3.
    + apply H3, I3.
Qed.

Lemma reachable_keeps_delay g s : reachable g s -> Delay (engine s) = Delay g.
Proof.
  induction 1 as [|s a out s' _ IH Hstep]; [reflexivity|].
  rewrite (step_keeps_delay _ _ _ _ Hstep). exact IH.
Qed.

(** X1: when [StartUI] starts with a recognized sort option, the sort
    option of the engine is a recognized one in every state the program
    reaches: enter stores the buffer only under the [case] of line 358. *)
Theorem sort_option_stays_valid g s :
  validSortOpt (SortOpt g) = true -> reachable g s ->
  validSortOpt (SortOpt (engine s)) = true.
Proof. intros Hg Hs. apply (reachable_invariants g s Hs), Hg. Qed.

(** X2: in every state the program reaches, [ui.Body.Rows] holds the grid
    of the current view, and in the help view neither capture is on. *)
Theorem help_view_has_no_capture g s :
  reachable g s ->
  bodyRows s = viewMode s
  /\ (viewMode s = HelpViewMode ->
      waitingSortOption s = false /\ waitingLimitOption s = false).
Proof.
  intros Hs. destruct (reachable_invariants g s Hs) as (_ & _ & [H1 H2] & _).
  split; [exact H1|]. intros Hv. apply orb_false_iff, H2, Hv.
Qed.

(** X3: in every state the program reaches, when no capture is on and no
    goroutine of lines 361-369 is in flight, [optionBuf] is empty; so a
    capture started then starts from an empty buffer, though lines 436-444
    do not reset it. *)
Theorem idle_buffer_is_empty g s :
  reachable g s ->
  waitingSortOption s = false -> waitingLimitOption s = false ->
  invalidOrder_pending s = false ->
  optionBuf s = "".
Proof.
  intros Hs Hw Hl Hp. destruct (reachable_invariants g s Hs) as (_ & _ & _ & H).
  apply H; [unfold awaiting; rewrite Hw, Hl; reflexivity | exact Hp].
Qed.

End Invariants.

(** Closes the branches whose conditions contradict each other. *)
Ltac absurd_branch :=
  exfalso;
  repeat match goal with
         | H : context [_ && false] |- _ => rewrite andb_false_r in H
         | H : context [_ || true] |- _ => rewrite orb_true_r in H
         end;
  simpl in *; bool_crush.

(** Splits on the conditions of a goal that runs the loop body. *)
Ltac run_handle :=
  stmt_unfold; simpl;
  repeat (match goal with
          | |- context [if ?c then _ else _] => destruct c eqn:?
          end; simpl).

(** X4: on enter in sort capture with a recognized option in the buffer,
    the option becomes the sort option of the engine, the prompt is
    blanked over the width of the buffer, the capture ends with an empty
    buffer, no goroutine is started and the pass ends with [continue]. *)
Theorem valid_sort_token_applied e s :
  isEnter e = true -> waitingSortOption s = true ->
  validSortOpt (optionBuf s) = true ->
  exists s',
    handle e s
    = (s', [Printf (at_prompt ++ GoString.spaces 18 ++ "  "
                    ++ GoString.spaces (2 * String.length (optionBuf s))%nat)],
       Continue)
    /\ engine s' = set_SortOpt (optionBuf s) (engine s)
    /\ waitingSortOption s' = false
    /\ waitingLimitOption s' = waitingLimitOption s
    /\ optionBuf s' = "" /\ viewMode s' = viewMode s
    /\ goroutines s' = goroutines s.
Proof.
  destruct s as [g v ws wl ds buf br pt gs us]; simpl.
  intros He -> Hv. stmt_unfold. rewrite He, Hv.
  eexists. split; [reflexivity|]. simpl. repeat split; reflexivity.
Qed.

(** X5: in a capture, in the top view, an event that is neither enter nor
    quit only edits the buffer: the engine, both capture flags, the
    subscription flag, the view and the grid stay, so the keys [s], [o],
    [n], [h] and [?] are text there. *)
Theorem capture_takes_every_key e s :
  awaiting s = true -> exclusive s -> viewMode s = TopViewMode ->
  isEnter e = false -> isQuit e = false ->
  exists s' out,
    handle e s = (s', out, Fall)
    /\ optionBuf s' = edited e (optionBuf s)
    /\ engine s' = engine s
    /\ waitingSortOption s' = waitingSortOption s
    /\ waitingLimitOption s' = waitingLimitOption s
    /\ displaySubscriptions s' = displaySubscriptions s
    /\ viewMode s' = TopViewMode /\ bodyRows s' = bodyRows s.
Proof.
  destruct s as [g v ws wl ds buf br pt gs us]; unfold awaiting, exclusive, edited; simpl.
  intros Ha Hx -> He Hq.
  destruct ws, wl; try discriminate;
    stmt_unfold; rewrite He, Hq; simpl;
    destruct (ui.isKey e && (0 <? GoString.len buf)
              && ((ui.Key e =? ui.KeyBackspace) || (ui.Key e =? ui.KeyBackspace2)));
    simpl; rewrite ?andb_false_r; simpl;
    repeat (match goal with
            | |- context [if ?c then _ else _] => destruct c eqn:?
            end; simpl);
    first [ do 2 eexists; (split; [reflexivity|]); simpl; repeat split; reflexivity
          | absurd_branch ].
Qed.

(** X6: with no capture on, in the top view, an event that is no resize
    and no key among [q], Ctrl-C, [s], [o], [n], [?], [h] changes nothing
    and writes nothing. *)
Theorem unbound_event_is_ignored e s :
  waitingSortOption s = false -> waitingLimitOption s = false ->
  viewMode s = TopViewMode ->
  ui.Type_ e <> ui.EventResize ->
  (ui.isKey e = true ->
   isQuit e = false
   /\ ui.Ch e <> rune "s" /\ ui.Ch e <> rune "o" /\ ui.Ch e <> rune "n"
   /\ ui.Ch e <> rune "?" /\ ui.Ch e <> rune "h") ->
  handle e s = (s, [], Fall).
Proof.
  destruct s as [g v ws wl ds buf br pt gs us]; simpl.
  intros -> -> -> Hr Hk.
  destruct (ui.isKey e) eqn:Ek.
  - destruct (Hk eq_refl) as (Hq & Hs & Ho & Hn & Hm & Hh).
    apply Z.eqb_neq in Hs, Ho, Hn, Hm, Hh.
    stmt_unfold. rewrite Hq, Ek, Hs, Ho, Hn, Hm, Hh. simpl.
    destruct (ui.Type_ e); try reflexivity. congruence.
  - assert (Hq : isQuit e = false) by (unfold isQuit; rewrite Ek; reflexivity).
    stmt_unfold. rewrite Hq, Ek. simpl.
    destruct (ui.Type_ e); try reflexivity. congruence.
Qed.

(** X7: with no capture on, in the top view, the key [s] sets both
    [displaySubscriptions] and [engine.DisplaySubs] to the negation of
    [displaySubscriptions] and changes nothing else; a second [s] gives
    both the first value of [displaySubscriptions]. *)
Theorem subscriptions_toggle s :
  waitingSortOption s = false -> waitingLimitOption s = false ->
  viewMode s = TopViewMode ->
  let s1 := fst (fst (handle (ui.char "s") s)) in
  let s2 := fst (fst (handle (ui.char "s") s1)) in
  displaySubscriptions s1 = negb (displaySubscriptions s)
  /\ DisplaySubs (engine s1) = negb (displaySubscriptions s)
  /\ s1 = set_engine (set_DisplaySubs (negb (displaySubscriptions s)))
            (set_displaySubscriptions (negb (displaySubscriptions s)) s)
  /\ displaySubscriptions s2 = displaySubscriptions s
  /\ DisplaySubs (engine s2) = displaySubscriptions s.
Proof.
  destruct s as [g v ws wl ds buf br pt gs us]; simpl.
  intros -> -> ->. destruct ds; vm_compute; repeat split; reflexivity.
Qed.

(** ** What an event never does *)

Definition renders (out : list Effect) : nat :=
  List.length (filter (fun x => match x with UiRender => true | _ => false end) out).

Definition redraw_senders (s : UI) : nat :=
  List.length (filter (fun g => match g with RedrawSender => true | _ => false end)
                 (goroutines s)).

Definition isResize (e : ui.Event) : bool :=
  match ui.Type_ e with ui.EventResize => true | _ => false end.

Definition silent (c : Stmt) : Prop :=
  forall s s' o f, c s = (s', o, f) -> renders o = 0%nat.

Lemma renders_app a b : renders (a ++ b) = (renders a + renders b)%nat.
Proof. unfold renders. rewrite filter_app, length_app. reflexivity. Qed.

Lemma silent_seq a b : silent a -> silent b -> silent (a ;; b).
Proof.
  intros Ha Hb s s' o f H. unfold seq in H.
  destruct (a s) as [[s1 o1] f1] eqn:Ea.
  destruct f1; [destruct (b s1) as [[s2 o2] f2] eqn:Eb | | ];
    injection H as <- <- <-.
  - rewrite renders_app, (Ha _ _ _ _ Ea), (Hb _ _ _ _ Eb). reflexivity.
  - apply (Ha _ _ _ _ Ea).
  - apply (Ha _ _ _ _ Ea).
Qed.

Lemma handle_silent e : silent (handle e).
Proof.
  unfold handle.
  repeat apply silent_seq;
    intros [g v ws wl ds buf br pt gs us] s' o f H;
    stmt_cases; stmt_unfold; reflexivity.
Qed.

Lemma handle_keeps_redraw_senders e n :
  isResize e = false ->
  preserves (fun s => redraw_senders s = n) (handle e).
Proof.
  intros Hr. unfold handle.
  repeat apply preserves_seq;
    intros [g v ws wl ds buf br pt gs us] s' o f HI H;
    unfold redraw_senders, isResize in *; simpl in HI;
    stmt_cases; stmt_unfold; simpl;
    rewrite ?filter_app, ?length_app; simpl; try lia; try congruence.
Qed.

Lemma resize_is_no_key e :
  isResize e = true -> ui.isKey e = false.
Proof. unfold isResize, ui.isKey. destruct (ui.Type_ e); congruence. Qed.

(** X8: one event through the loop never calls [ui.Render], and leaves a
    goroutine that sends on [redraw] exactly when it is a resize: what a
    key changes shows at the next redraw only. *)
Theorem handle_never_renders e s :
  let '(s', out, _) := handle e s in
  renders out = 0%nat
  /\ redraw_senders s'
     = (redraw_senders s + if isResize e then 1 else 0)%nat.
Proof.
  destruct (handle e s) as [[s' out] f] eqn:H.
  split; [apply (handle_silent e _ _ _ _ H)|].
  destruct (isResize e) eqn:Hr.
  - pose proof (resize_is_no_key e Hr) as Hk.
    revert H. destruct s as [g v ws wl ds buf br pt gs us].
    unfold isResize in Hr.
    assert (He : isEnter e = false) by (unfold isEnter; rewrite Hk; reflexivity).
    assert (Hq : isQuit e = false) by (unfold isQuit; rewrite Hk; reflexivity).
    stmt_unfold. rewrite He, Hq, Hk, Hr. simpl.
    destruct ws, wl; simpl; intros H; injection H as <- _ _;
      unfold redraw_senders; simpl; rewrite filter_app, length_app; reflexivity.
  - rewrite Nat.add_0_r.
    apply (handle_keeps_redraw_senders e (redraw_senders s) Hr s s' out f eq_refl H).
Qed.

(** ** Typing a value *)

Lemma validSortOpt_cases o :
  validSortOpt o = true ->
  o = SortByCid \/ o = SortBySubs \/ o = SortByPending \/ o = SortByOutMsgs
  \/ o = SortByInMsgs \/ o = SortByOutBytes \/ o = SortByInBytes.
Proof.
  unfold validSortOpt. intros H.
  repeat (apply orb_true_iff in H; destruct H as [H|H]);
    apply String.eqb_eq in H; tauto.
Qed.

(** X9: from a state with no capture on, the top view and an empty
    buffer, the key [o], the letters of any of the seven options, then
    enter make that option the sort option and end the capture, with the
    rest of the engine and the subscription flag unchanged: no option holds
    a key that quits or leaves the capture. *)
Theorem every_sort_option_can_be_typed tok s :
  validSortOpt tok = true ->
  waitingSortOption s = false -> waitingLimitOption s = false ->
  viewMode s = TopViewMode -> optionBuf s = "" ->
  let '(s', _, exited) := loop (ui.typed ("o" ++ tok) ++ [ui.enter]) s in
  exited = false
  /\ engine s' = set_SortOpt tok (engine s)
  /\ waitingSortOption s' = false /\ waitingLimitOption s' = false
  /\ viewMode s' = TopViewMode /\ optionBuf s' = ""
  /\ displaySubscriptions s' = displaySubscriptions s.
Proof.
  destruct s as [g v ws wl ds buf br pt gs us]; simpl.
  intros Hv -> -> -> ->.
  destruct (validSortOpt_cases tok Hv) as [->|[->|[->|[->|[->|[->| ->]]]]]];
    vm_compute; repeat split; reflexivity.
Qed.

(** A digit or the minus sign. *)
Definition plain (c : ascii) : bool := fmt.is_digit c || (GoString.code c =? 45).

Lemma plain_cases c :
  plain c = true ->
  In c ["0"; "1"; "2"; "3"; "4"; "5"; "6"; "7"; "8"; "9"; "-"]%char.
Proof.
  destruct c as [[] [] [] [] [] [] [] []]; vm_compute; intros H;
    try discriminate; tauto.
Qed.

Lemma limit_capture_takes_plain c s :
  plain c = true ->
  waitingLimitOption s = true -> waitingSortOption s = false ->
  viewMode s = TopViewMode ->
  exists out,
    handle (ui.char c) s = (set_optionBuf (optionBuf s ++ String c "") s, out, Fall).
Proof.
  destruct s as [g v ws wl ds buf br pt gs us]; simpl.
  intros Hc -> -> ->.
  apply plain_cases in Hc. simpl in Hc.
  repeat (destruct Hc as [<-|Hc];
          [eexists; stmt_unfold; unfold isEnter, isQuit; simpl;
           rewrite andb_false_r; reflexivity|]).
  destruct Hc.
Qed.

Lemma set_optionBuf_twice a b s : set_optionBuf a (set_optionBuf b s) = set_optionBuf a s.
Proof. destruct s; reflexivity. Qed.

Lemma typing_in_limit_capture str : forall s,
  Forall (fun c => plain c = true) (list_ascii_of_string str) ->
  waitingLimitOption s = true -> waitingSortOption s = false ->
  viewMode s = TopViewMode ->
  exists out,
    loop (ui.typed str) s = (set_optionBuf (optionBuf s ++ str) s, out, false).
Proof.
  induction str as [|c str IH]; intros s Hp Hl Hs Hv.
  - exists []. simpl. rewrite append_nil_r. destruct s; reflexivity.
  - simpl in Hp. apply Forall_cons_iff in Hp; destruct Hp as [Hc Hp].
    destruct (limit_capture_takes_plain c s Hc Hl Hs Hv) as [o1 H1].
    destruct (IH (set_optionBuf (optionBuf s ++ String c "") s)) as [o2 H2];
      try assumption; try (destruct s; assumption).
    exists (o1 ++ o2)%list.
    change (ui.typed (String c str)) with (ui.char c :: ui.typed str).
    cbn [loop]. rewrite H1, H2.
    rewrite set_optionBuf_twice.
    replace (optionBuf (set_optionBuf (optionBuf s ++ String c "") s) ++ str)
      with (optionBuf s ++ String c str); [reflexivity|].
    destruct s; simpl. rewrite append_assoc. reflexivity.
Qed.

Lemma string_of_uint_plain d :
  Forall (fun c => plain c = true) (list_ascii_of_string (NilEmpty.string_of_uint d)).
Proof. induction d; simpl; constructor; auto. Qed.

Lemma verb_d_plain n :
  Forall (fun c => plain c = true) (list_ascii_of_string (fmt.verb_d n)).
Proof.
  unfold fmt.verb_d. destruct n as [|p|p]; simpl.
  - repeat constructor.
  - unfold NilZero.string_of_uint.
    destruct (Pos.to_uint p) eqn:E; try (rewrite <- E; apply string_of_uint_plain).
    repeat constructor.
  - constructor; [reflexivity|].
    unfold NilZero.string_of_uint.
    destruct (Pos.to_uint p) eqn:E; try (rewrite <- E; apply string_of_uint_plain).
    repeat constructor.
Qed.

(** X10: from a state with no capture on, the top view and an empty
    buffer, the key [n], the decimal form of any 64-bit integer (a minus
    sign included), then enter make that integer [engine.Conns] and end
    the capture. *)
Theorem typed_number_becomes_limit n s :
  - 2 ^ 63 <= n <= 2 ^ 63 - 1 ->
  waitingSortOption s = false -> waitingLimitOption s = false ->
  viewMode s = TopViewMode -> optionBuf s = "" ->
  let '(s', _, exited) := loop (ui.typed ("n" ++ fmt.verb_d n) ++ [ui.enter]) s in
  exited = false
  /\ engine s' = set_Conns n (engine s)
  /\ waitingSortOption s' = false /\ waitingLimitOption s' = false
  /\ viewMode s' = TopViewMode /\ optionBuf s' = "".
Proof.
  destruct s as [g v ws wl ds buf br pt gs us]; simpl.
  intros Hn -> -> -> ->.
  pose (s1 := mkUI g TopViewMode false true ds "" br pt gs us).
  assert (H0 : handle (ui.char "n") (mkUI g TopViewMode false false ds "" br pt gs us)
               = (s1, [Printf (at_prompt ++ "limit   [" ++ fmt.verb_d (Conns g) ++ "]:")],
                  Fall)) by reflexivity.
  destruct (typing_in_limit_capture (fmt.verb_d n) s1
              (verb_d_plain n) eq_refl eq_refl eq_refl) as [o H].
  assert (H3 : handle ui.enter (set_optionBuf (optionBuf s1 ++ fmt.verb_d n) s1)
               = (mkUI (set_Conns n g) TopViewMode false false ds "" br pt gs us,
                  [Printf (at_prompt ++ GoString.spaces 18 ++ "  ")], Continue)).
  { unfold s1. stmt_unfold. change (isEnter ui.enter) with true. cbv beta iota.
    simpl. rewrite (Sscanf_d_verb_d n Hn). reflexivity. }
  change (ui.typed (String "n" (fmt.verb_d n)) ++ [ui.enter])%list
    with (ui.char "n" :: (ui.typed (fmt.verb_d n) ++ [ui.enter]))%list.
  cbn [loop]. rewrite H0. cbv beta iota.
  rewrite loop_app. unfold ui.typed in H. rewrite H. cbv beta iota. cbn [loop].
  rewrite H3. cbv beta iota.
  simpl. repeat split; reflexivity.
Qed.

(** ** What [Sscanf] makes of text *)

(** The first byte of a text that [%d] cannot read: an ASCII byte that is
    no space, no sign and no digit. *)
Definition text_head (c : ascii) : bool :=
  (GoString.code c <? 128) && negb (fmt.isSpace (GoString.code c))
  && negb (fmt.is_digit c) && negb (fmt.is_sign c).

(** The text after a number does not go on with a digit. *)
Definition ends_number (t : string) : bool :=
  match t with
  | String c _ => negb (fmt.is_digit c)
  | EmptyString => true
  end.

Lemma Sscanf_d_text c rest : text_head c = true -> fmt.Sscanf_d (String c rest) = None.
Proof.
  unfold text_head. intros H.
  repeat (apply andb_true_iff in H; destruct H as [H ?]).
  apply negb_true_iff in H0, H1, H2.
  assert (H13 : (GoString.code c =? 13) = false).
  { destruct (GoString.code c =? 13) eqn:E; [|reflexivity].
    apply Z.eqb_eq in E. rewrite E in H2. discriminate. }
  assert (H10 : (GoString.code c =? 10) = false).
  { destruct (GoString.code c =? 10) eqn:E; [|reflexivity].
    apply Z.eqb_eq in E. rewrite E in H2. discriminate. }
  unfold fmt.Sscanf_d. cbn [fmt.SkipSpace]. unfold GoString.DecodeRune.
  rewrite H, H13, H10, H2. simpl. rewrite H0. unfold fmt.scanNumber. rewrite H1.
  reflexivity.
Qed.

Lemma scanDigits_prefix d t acc :
  ends_number t = true ->
  fmt.scanDigits acc (NilEmpty.string_of_uint d ++ t) = digits_value d acc.
Proof.
  intros Ht. revert acc; induction d; intros acc; simpl; try apply IHd.
  destruct t as [|c t]; simpl; [reflexivity|].
  simpl in Ht. apply negb_true_iff in Ht. rewrite Ht. reflexivity.
Qed.

Lemma Sscanf_d_prefix n t :
  - 2 ^ 63 <= n <= 2 ^ 63 - 1 -> ends_number t = true ->
  fmt.Sscanf_d (fmt.verb_d n ++ t) = Some n.
Proof.
  intros Hn Ht.
  assert (Hr : ((- 2 ^ 63 <=? n) && (n <=? 2 ^ 63 - 1)) = true).
  { apply andb_true_iff; split; apply Z.leb_le; lia. }
  assert (Hsign : forall c, fmt.is_digit c = true -> fmt.is_sign c = false).
  { intros c H. unfold fmt.is_digit, fmt.is_sign in *.
    apply andb_true_iff in H; destruct H as [H1 H2].
    apply Z.leb_le in H1, H2. apply orb_false_iff; split; apply Z.eqb_neq; lia. }
  assert (Hv : forall p, fmt.scanDigits 0 (NilEmpty.string_of_uint (Pos.to_uint p) ++ t)
                         = Z.pos p).
  { intros p. rewrite scanDigits_prefix by exact Ht.
    rewrite digits_value_0. unfold Z.of_uint.
    rewrite DecimalPos.Unsigned.of_to. reflexivity. }
  assert (Hz : fmt.Sscanf_d ("0" ++ t) = Some 0).
  { unfold fmt.Sscanf_d. simpl.
    destruct t as [|c t]; simpl; [reflexivity|].
    simpl in Ht. apply negb_true_iff in Ht. rewrite Ht. reflexivity. }
  unfold fmt.verb_d.
  destruct n as [|p|p]; [exact Hz| |].
  - simpl Z.to_int. simpl NilZero.string_of_int.
    destruct (to_uint_digit p) as (c & s & E & Hc).
    specialize (Hv p).
    unfold NilZero.string_of_uint.
    destruct (Pos.to_uint p) eqn:Eu; try discriminate;
      rewrite <- Eu in *; rewrite E in *; simpl append in *;
      unfold fmt.Sscanf_d;
      rewrite SkipSpace_digit by exact Hc;
      rewrite (Hsign c Hc); unfold fmt.scanNumber; rewrite Hc, Hv, Hr; reflexivity.
  - simpl Z.to_int. simpl NilZero.string_of_int.
    destruct (to_uint_digit p) as (c & s & E & Hc).
    specialize (Hv p).
    unfold NilZero.string_of_uint.
    destruct (Pos.to_uint p) eqn:Eu; try discriminate;
      rewrite <- Eu in *; rewrite E in *; simpl append in *;
      unfold fmt.Sscanf_d;
      (change (fmt.SkipSpace (S (String.length (String "-" (String c (s ++ t)))))
                 (String "-" (String c (s ++ t))))
         with (Some (String "-" (String c (s ++ t)))));
      cbv beta iota; change (fmt.is_sign "-") with true; cbv beta iota;
      change (GoString.code "-" =? 45) with true;
      unfold fmt.scanNumber; rewrite Hc, Hv;
      change (- Z.pos p) with (Z.neg p); rewrite Hr; reflexivity.
Qed.

(** X11: on enter in limit capture, a buffer whose first byte is an ASCII
    byte that is no space, no sign and no digit leaves the engine as it is;
    the capture ends with an empty buffer. *)
Theorem limit_rejects_text e s c rest :
  isEnter e = true ->
  waitingLimitOption s = true -> waitingSortOption s = false ->
  optionBuf s = String c rest -> text_head c = true ->
  exists s' out,
    handle e s = (s', out, Continue)
    /\ engine s' = engine s
    /\ waitingLimitOption s' = false /\ optionBuf s' = "".
Proof.
  destruct s as [g v ws wl ds buf br pt gs us]; simpl.
  intros He -> -> -> Hc.
  stmt_unfold. rewrite He, (Sscanf_d_text c rest Hc).
  do 2 eexists. split; [reflexivity|]. simpl. repeat split; reflexivity.
Qed.

(** X12: on enter in limit capture, a buffer made of the decimal form of
    a 64-bit integer and of text that does not start with a digit sets
    [engine.Conns] to that integer: [Sscanf] does not look at the text
    after the number. *)
Theorem limit_takes_leading_number e s n t :
  isEnter e = true ->
  waitingLimitOption s = true -> waitingSortOption s = false ->
  - 2 ^ 63 <= n <= 2 ^ 63 - 1 -> ends_number t = true ->
  optionBuf s = fmt.verb_d n ++ t ->
  engine (fst (fst (handle e s))) = set_Conns n (engine s).
Proof.
  destruct s as [g v ws wl ds buf br pt gs us]; simpl.
  intros He -> -> Hn Ht ->.
  stmt_unfold. rewrite He, (Sscanf_d_prefix n t Hn Ht). reflexivity.
Qed.

(** ** The width of what the prompt line shows *)

Lemma length_spaces n : String.length (GoString.spaces n) = n.
Proof. induction n; simpl; congruence. Qed.

Lemma validSortOpt_length o : validSortOpt o = true -> (String.length o <= 10)%nat.
Proof.
  intros H.
  destruct (validSortOpt_cases o H) as [->|[->|[->|[->|[->|[->| ->]]]]]];
    simpl; lia.
Qed.

(** X13: with a recognized sort option in the engine, the line "invalid
    order: ..." that the goroutine of lines 361-369 prints is at least as
    long as the prompt "sort by [...]: ..." last printed for the same
    buffer (the comment of line 362). *)
Theorem invalid_message_covers_prompt e s :
  waitingSortOption s = true -> isEnter e = false ->
  validSortOpt (SortOpt (engine s)) = true ->
  let '(s1, out1, _) := sortOption e s in
  let '(_, out2, _) := invalidOrder_start s1 in
  exists p m,
    last out1 (Sleep 0) = Printf p /\ hd (Sleep 0) out2 = Printf m
    /\ (String.length p <= String.length m)%nat.
Proof.
  destruct s as [g v ws wl ds buf br pt gs us]; simpl.
  intros -> He Hv. apply validSortOpt_length in Hv.
  stmt_unfold. rewrite He.
  destruct (ui.isKey e && (0 <? GoString.len buf)
            && ((ui.Key e =? ui.KeyBackspace) || (ui.Key e =? ui.KeyBackspace2)));
    cbv beta iota zeta; do 2 eexists; (split; [reflexivity|]);
    (split; [reflexivity|]);
    rewrite !length_append; simpl; rewrite ?length_append; simpl; lia.
Qed.

(** X14: the goroutine of lines 361-369 prints the message, sleeps one
    second, and prints the blank of [refreshOptionHeader]; the blank is as
    long as the message exactly when the buffer holds two bytes or more. *)
Theorem blank_covers_message s :
  let '(s1, out1, _) := invalidOrder_start s in
  let '(_, out2, _) := invalidOrder_wake s1 in
  exists m b,
    out1 = [Printf m; Sleep (1 * Second)] /\ out2 = [Printf b]
    /\ ((String.length m <= String.length b)%nat
        <-> (2 <= String.length (optionBuf s))%nat).
Proof.
  destruct s as [g v ws wl ds buf br pt gs us].
  stmt_unfold. do 2 eexists. split; [reflexivity|]. split; [reflexivity|].
  repeat (rewrite ?length_append, ?length_spaces; simpl). lia.
Qed.

Section EmptySnapshot.

Variable float64 : Type.
Variable verb_f1 : float64 -> string.
Variable int64 : float64 -> Z.
Variable Psize : Z -> string.
Variable alg : sort.Algorithm.

Local Abbreviation generateParagraph :=
  (generateParagraph float64 verb_f1 int64 Psize alg).

Lemma sortConns_nil opt : sortConns alg opt [] = [].
Proof. apply Permutation_nil, sortConns_permutes. Qed.

(** X15: on a snapshot with no connection, as the placeholder of
    lines 274-278 is, [generateParagraph] gives the server block and the
    header of the table with no row, whatever the sort option, and leaves
    the snapshot as it is. *)
Theorem no_connection_no_row g stats :
  Connz.Conns (Stats.Connz stats) = [] ->
  generateParagraph g stats
  = (serverText float64 verb_f1 int64 Psize stats ++ connRows (DisplaySubs g), stats).
Proof.
  intros H. unfold_generateParagraph. rewrite H, sortConns_nil. simpl.
  destruct stats as [v [n c] r]. simpl in H. subst c. reflexivity.
Qed.

End EmptySnapshot.

Lemma no_connection_no_row_witness :
  Demo.generateParagraph (set_SortOpt SortByInBytes Demo.engine0)
    (cleanStats Demo.float64 tt)
  = (serverText Demo.float64 Demo.verb_f1 Demo.int64 Demo.Psize
       (cleanStats Demo.float64 tt) ++ connRows false,
     cleanStats Demo.float64 tt).
Proof.
  exact (no_connection_no_row Demo.float64 Demo.verb_f1 Demo.int64 Demo.Psize
           Demo.alg (set_SortOpt SortByInBytes Demo.engine0)
           (cleanStats Demo.float64 tt) eq_refl).
Defined.

(** ** [main] *)

Ltac main_cases :=
  unfold Main.main, Main.tlsSetup, Main.usage, Main.log_Fatalf, Main.log_Printf,
    Main.bind, Main.ret, Main.stop, Main.act;
  repeat match goal with
         | |- context [if ?c then _ else _] => destruct c eqn:?
         | |- context [match Main.ReadFile ?w ?p with _ => _ end] =>
           destruct (Main.ReadFile w p) eqn:?
         | |- context [match Main.LoadX509KeyPair ?w ?c ?k with _ => _ end] =>
           destruct (Main.LoadX509KeyPair w c k) eqn:?
         | |- context [match Main.Init ?w with _ => _ end] =>
           destruct (Main.Init w) eqn:?
         end;
  cbv beta iota zeta; simpl.

(** Turns the tests of the flags into equations. *)
Ltac flags_facts :=
  repeat match goal with
         | H : (_ =? _)%string = false |- _ => apply String.eqb_neq in H
         | H : (_ =? _)%string = true |- _ => apply String.eqb_eq in H
         | H : (_ =? _) = true |- _ => apply Z.eqb_eq in H
         | H : (_ =? _) = false |- _ => apply Z.eqb_neq in H
         | H : negb _ = true |- _ => apply negb_true_iff in H
         | H : negb _ = false |- _ => apply negb_false_iff in H
         | H : _ && _ = false |- _ => apply andb_false_iff in H
         | H : _ && _ = true |- _ => apply andb_true_iff in H; destruct H
         | H : _ \/ _ |- _ => destruct H
         | H : true = false |- _ => discriminate H
         | H : false = true |- _ => discriminate H
         end.

(** What holds of the flags and of the engine when [main] calls [StartUI]. *)
Lemma main_started f w t g uri tls :
  Main.main f w = (t, Main.Started g uri tls) ->
  g = mkEngine (Main.conns f) (Main.delay f) (Main.sortBy f) false
  /\ validSortOpt (Main.sortBy f) = true
  /\ Main.showVersion f = false
  /\ (Main.host f =? "")%string = false
  /\ ((Main.port f =? 0) && (Main.httpsPort f =? 0)) = false
  /\ Main.Init w = None.
Proof.
  main_cases; intros H; inversion H; subst; repeat split; auto.
Qed.

(** X16: [main] calls [StartUI] only with a recognized sort option, a host
    and a port, after [ui.Init] as its last action; the engine holds the
    flags [-n], [-d] and [-sort] with [DisplaySubs] off, and the [Uri] and
    the TLS configuration are the secure ones exactly when the secure port
    is set. *)
Theorem main_starts_with_valid_flags f w t g uri tls :
  Main.main f w = (t, Main.Started g uri tls) ->
  validSortOpt (SortOpt g) = true
  /\ SortOpt g = Main.sortBy f /\ Conns g = Main.conns f
  /\ Delay g = Main.delay f /\ DisplaySubs g = false
  /\ Main.host f <> ""
  /\ (Main.port f <> 0 \/ Main.httpsPort f <> 0)
  /\ uri = (if Main.httpsPort f =? 0
            then "http://" ++ Main.host f ++ ":" ++ fmt.verb_d (Main.port f)
            else "https://" ++ Main.host f ++ ":" ++ fmt.verb_d (Main.httpsPort f))
  /\ (tls = None <-> Main.httpsPort f = 0)
  /\ last t (Main.Log "") = Main.UiInit.
Proof.
  main_cases; intros H; inversion H; subst; clear H; simpl; flags_facts;
    repeat split; auto; try tauto; try congruence; try discriminate;
    try (rewrite ?last_last; reflexivity).
Qed.

(** X17: when [main] exits, [ui.Init] was never called, the last action
    is a line on the logger, and the exit code is 0 under the version flag
    and 1 otherwise. *)
Theorem main_exit_leaves_terminal_alone f w t code :
  Main.main f w = (t, Main.Exited code) ->
  ~ In Main.UiInit t
  /\ (exists text, last t Main.UiInit = Main.Log text)
  /\ code = (if Main.showVersion f then 0 else 1).
Proof.
  main_cases; intros H; inversion H; subst; clear H; simpl;
    (split; [intuition discriminate|]); (split; [eexists; reflexivity|]);
    reflexivity.
Qed.

(** X18: [main] reads a file only without the version flag and behind the
    secure port: the CA file when its flag names one, and a key pair when
    both [-cert] and [-key] are set, from the files they name. *)
Theorem main_reads_only_what_flags_name f w :
  let t := fst (Main.main f w) in
  (forall p, In (Main.Read p) t ->
     Main.showVersion f = false /\ Main.httpsPort f <> 0
     /\ p = Main.caCertOpt f /\ p <> "")
  /\ (forall c k, In (Main.Load c k) t ->
     Main.showVersion f = false /\ Main.httpsPort f <> 0
     /\ c = Main.certOpt f /\ k = Main.keyOpt f /\ c <> "" /\ k <> "").
Proof.
  cbv zeta. main_cases; flags_facts;
    (split; [intros p Hin | intros c k Hin]); simpl in Hin;
    repeat match goal with
           | H : _ \/ _ |- _ => destruct H
           | H : False |- _ => destruct H
           | H : Main.Read _ = Main.Read _ |- _ => injection H as <-
           | H : Main.Load _ _ = Main.Load _ _ |- _ => injection H as <- <-
           | H : _ = _ |- _ => discriminate H
           end;
    repeat split; auto.
Qed.

(** Only a failure of [ui.Init] makes [main] panic. *)
Lemma main_panics_only_on_ui_Init f w t err :
  Main.main f w = (t, Main.Panicked err) ->
  Main.Init w = Some err /\ last t (Main.Log "") = Main.UiInit
  /\ validSortOpt (Main.sortBy f) = true.
Proof.
  main_cases; intros H; inversion H; subst; clear H; simpl;
    repeat split; auto; rewrite ?last_last; reflexivity.
Qed.

(** ** [main], then [StartUI] *)

Section MainThenStartUI.

Variable float64 : Type.
Variable verb_f1 : float64 -> string.
Variable int64 : float64 -> Z.
Variable Psize : Z -> string.
Variable alg : sort.Algorithm.
Variable zero : float64.

Local Abbreviation reachable := (reachable float64 verb_f1 int64 Psize alg zero).

(** X19: in every state of the program that [main] starts, the sort option
    of the engine is one of the seven, the flag [displaySubscriptions] of
    the loop equals [engine.DisplaySubs], and [engine.Delay] is still the
    flag [-d]. *)
Theorem started_ui_keeps_flags f w t g uri tls s :
  Main.main f w = (t, Main.Started g uri tls) ->
  reachable g s ->
  validSortOpt (SortOpt (engine s)) = true
  /\ displaySubscriptions s = DisplaySubs (engine s)
  /\ Delay (engine s) = Main.delay f.
Proof.
  intros Hm Hs.
  destruct (main_started f w t g uri tls Hm) as (Hg & Hv & _).
  destruct (reachable_invariants _ _ _ _ _ _ g s Hs) as (H1 & H2 & _).
  rewrite (reachable_keeps_delay _ _ _ _ _ _ g s Hs).
  subst g. simpl in H1, H2. split; [exact (H1 Hv)|]. split; [exact (H2 eq_refl)|].
  reflexivity.
Qed.

End MainThenStartUI.

(** The outside in which no file can be read and the terminal opens. *)
Definition quiet_world : Main.World :=
  Main.mkWorld (fun _ => inr "open: no such file or directory") (fun _ _ => None) None.

(** X19 on the default flags and the keys [s], [o], [s], [u], [b], [s],
    enter. *)
Lemma started_ui_keeps_flags_witness :
  SortOpt (engine (Demo.after (ui.typed "sosubs" ++ [ui.enter]))) = SortBySubs
  /\ validSortOpt (SortOpt (engine (Demo.after (ui.typed "sosubs" ++ [ui.enter])))) = true
  /\ displaySubscriptions (Demo.after (ui.typed "sosubs" ++ [ui.enter])) = true.
Proof.
  assert (R : Demo.reachable (Demo.after (ui.typed "sosubs" ++ [ui.enter]))).
  { apply reachable_after; [apply reachable_start | reflexivity]. }
  destruct (started_ui_keeps_flags Demo.float64 Demo.verb_f1 Demo.int64 Demo.Psize
              Demo.alg tt Main.defaults quiet_world _ _ _ _ _ eq_refl R)
    as (H1 & _ & _).
  split; [reflexivity|]. split; [exact H1 | reflexivity].
Defined.

(** X16 on the default flags. *)
Lemma main_starts_with_valid_flags_witness :
  Main.main Main.defaults quiet_world
  = ([Main.UiInit], Main.Started Demo.engine0 "http://127.0.0.1:8222" None)
  /\ validSortOpt (SortOpt Demo.engine0) = true.
Proof.
  split; [reflexivity|].
  exact (proj1 (main_starts_with_valid_flags Main.defaults quiet_world _ _ _ _ eq_refl)).
Defined.

(** X17 on a sort option that is none of the seven. *)
Lemma main_exit_leaves_terminal_alone_witness :
  exists t,
    Main.main (Main.mkFlags "127.0.0.1" 8222 1024 1 "name" false 0 "" "" "" false)
      quiet_world = (t, Main.Exited 1)
    /\ ~ In Main.UiInit t.
Proof.
  exists (fst (Main.main
            (Main.mkFlags "127.0.0.1" 8222 1024 1 "name" false 0 "" "" "" false)
            quiet_world)).
  split; [reflexivity|].
  exact (proj1 (main_exit_leaves_terminal_alone
                  (Main.mkFlags "127.0.0.1" 8222 1024 1 "name" false 0 "" "" "" false)
                  quiet_world _ 1 eq_refl)).
Defined.

(** X1 on the keys [o], "pending", enter. *)
Lemma sort_option_stays_valid_witness :
  validSortOpt (SortOpt (engine (Demo.after (ui.typed "opending" ++ [ui.enter])))) = true.
Proof.
  refine (sort_option_stays_valid _ _ _ _ _ tt Demo.engine0 _ eq_refl _).
  apply reachable_after; [apply reachable_start | reflexivity].
Defined.

(** X2 on the help view after the key [h]. *)
Lemma help_view_has_no_capture_witness :
  viewMode (Demo.after (ui.typed "h")) = HelpViewMode
  /\ bodyRows (Demo.after (ui.typed "h")) = viewMode (Demo.after (ui.typed "h")).
Proof.
  split; [reflexivity|].
  refine (proj1 (help_view_has_no_capture _ _ _ _ _ tt Demo.engine0 _ _)).
  apply reachable_after; [apply reachable_start | reflexivity].
Defined.

(** X3 after the keys [o], "cid", enter. *)
Lemma idle_buffer_is_empty_witness :
  optionBuf (Demo.after (ui.typed "ocid" ++ [ui.enter])) = "".
Proof.
  refine (idle_buffer_is_empty _ _ _ _ _ tt Demo.engine0
            (Demo.after (ui.typed "ocid" ++ [ui.enter])) _ eq_refl eq_refl eq_refl).
  apply reachable_after; [apply reachable_start | reflexivity].
Defined.

(** X4 on enter after the keys [o], "msgs_to". *)
Lemma valid_sort_token_applied_witness :
  exists s',
    fst (fst (handle ui.enter (Demo.after (ui.typed "omsgs_to")))) = s'
    /\ SortOpt (engine s') = SortByOutMsgs /\ waitingSortOption s' = false.
Proof.
  destruct (valid_sort_token_applied ui.enter (Demo.after (ui.typed "omsgs_to"))
              eq_refl eq_refl eq_refl) as (s' & H & Hg & Hw & _).
  exists s'. rewrite H. split; [reflexivity|]. split; [rewrite Hg; reflexivity | exact Hw].
Defined.

(** X5 on the key [s] in a sort capture. *)
Lemma capture_takes_every_key_witness :
  exists s' out,
    handle (ui.char "s") (Demo.after (ui.typed "osub")) = (s', out, Fall)
    /\ optionBuf s' = "subs" /\ displaySubscriptions s' = false.
Proof.
  destruct (capture_takes_every_key (ui.char "s") (Demo.after (ui.typed "osub"))
              eq_refl eq_refl eq_refl eq_refl eq_refl)
    as (s' & out & H & Hb & _ & _ & _ & Hd & _).
  exists s', out. split; [exact H|]. split; [rewrite Hb | rewrite Hd]; reflexivity.
Defined.

(** X6 on the key [x] at the start. *)
Lemma unbound_event_is_ignored_witness :
  handle (ui.char "x") Demo.start = (Demo.start, [], Fall).
Proof.
  apply unbound_event_is_ignored; try reflexivity; try discriminate.
  intros _. repeat split; discriminate.
Defined.

(** X7 at the start. *)
Lemma subscriptions_toggle_witness :
  displaySubscriptions (Demo.after (ui.typed "s")) = true
  /\ displaySubscriptions (Demo.after (ui.typed "ss")) = false.
Proof.
  destruct (subscriptions_toggle Demo.start eq_refl eq_refl eq_refl)
    as (H1 & _ & _ & H2 & _).
  split; [exact H1 | exact H2].
Defined.

(** X9 on "bytes_from". *)
Lemma every_sort_option_can_be_typed_witness :
  SortOpt (engine (Demo.after (ui.typed "obytes_from" ++ [ui.enter]))) = SortByInBytes.
Proof.
  pose proof (every_sort_option_can_be_typed SortByInBytes Demo.start
                eq_refl eq_refl eq_refl eq_refl eq_refl) as H.
  change ("o" ++ SortByInBytes) with "obytes_from" in H.
  unfold Demo.after.
  destruct (loop (ui.typed "obytes_from" ++ [ui.enter]) Demo.start) as [[s' out] x].
  destruct H as (_ & Hg & _). simpl. rewrite Hg. reflexivity.
Defined.

(** X10 on the limit -42. *)
Lemma typed_number_becomes_limit_witness :
  Conns (engine (Demo.after (ui.typed "n-42" ++ [ui.enter]))) = -42.
Proof.
  assert (Hn : - 2 ^ 63 <= -42 <= 2 ^ 63 - 1) by lia.
  pose proof (typed_number_becomes_limit (-42) Demo.start Hn
                eq_refl eq_refl eq_refl eq_refl) as H.
  change ("n" ++ fmt.verb_d (-42)) with "n-42" in H.
  unfold Demo.after.
  destruct (loop (ui.typed "n-42" ++ [ui.enter]) Demo.start) as [[s' out] x].
  destruct H as (_ & Hg & _). simpl. rewrite Hg. reflexivity.
Defined.

(** X11 on the buffer "abc". *)
Lemma limit_rejects_text_witness :
  exists s' out,
    handle ui.enter (Demo.after (ui.typed "nabc")) = (s', out, Continue)
    /\ Conns (engine s') = 1024.
Proof.
  destruct (limit_rejects_text ui.enter (Demo.after (ui.typed "nabc")) "a" "bc"
              eq_refl eq_refl eq_refl eq_refl eq_refl) as (s' & out & H & Hg & _).
  exists s', out. split; [exact H | rewrite Hg; reflexivity].
Defined.

(** X12 on the buffer "5abc". *)
Lemma limit_takes_leading_number_witness :
  Conns (engine (fst (fst (handle ui.enter (Demo.after (ui.typed "n5abc")))))) = 5.
Proof.
  assert (Hn : - 2 ^ 63 <= 5 <= 2 ^ 63 - 1) by lia.
  rewrite (limit_takes_leading_number ui.enter (Demo.after (ui.typed "n5abc")) 5 "abc"
             eq_refl eq_refl eq_refl Hn eq_refl eq_refl).
  reflexivity.
Defined.

(** X13 on the key [x] in a sort capture with the option "cid". *)
Lemma invalid_message_covers_prompt_witness :
  let '(s1, out1, _) := sortOption (ui.char "x") (Demo.after (ui.typed "o")) in
  let '(_, out2, _) := invalidOrder_start s1 in
  exists p m,
    last out1 (Sleep 0) = Printf p /\ hd (Sleep 0) out2 = Printf m
    /\ (String.length p <= String.length m)%nat.
Proof.
  exact (invalid_message_covers_prompt (ui.char "x") (Demo.after (ui.typed "o"))
           eq_refl eq_refl eq_refl).
Defined.
